(** * Conversational recommendation chain: the history store and the
      runnable composition of [flipkart/rag_chain.py]

    The development follows the source file top to bottom:
    - the per-session history store of [RAGChainBuilder] ([__init__],
      [_get_history]), with Python object identity kept explicit through a
      heap of [ChatMessageHistory] objects;
    - the runnables assembled by [build_chain], written as functions on
      Python-like values that may raise;
    - the wrapper [RunnableWithMessageHistory] that loads the history before
      a turn and records the turn after it.

    [build_chain] is a composition of combinators of the orchestration
    library ([|], a dict of runnables, [RunnablePassthrough], prompt
    templates, [create_history_aware_retriever],
    [create_stuff_documents_chain], [RunnableWithMessageHistory]). Each one is
    written out below under its own name with the behaviour the library
    documents for it, so that the composition reads as in the source. The
    chat model, the vector store and Python's [str] are parameters: nothing
    is assumed of them. A model or store that answers differently on each
    call is covered, since within one invocation no two requests to the
    model carry the same prompt and the store is asked at most once. *)

From Stdlib Require Import Ascii.
From stdpp Require Import gmap strings list fin_maps.

(** ** Messages, documents and Python values *)

Inductive role := system | human | ai.

Record message := Message { msg_role : role; content : string }.

Definition SystemMessage (s : string) : message := Message system s.
Definition HumanMessage (s : string) : message := Message human s.
Definition AIMessage (s : string) : message := Message ai s.

Record document := Document { page_content : string; metadata : list (string * string) }.

(** The values that flow between runnables: strings, message lists,
    document lists and dicts (insertion ordered, string keys). *)
#[warnings="-register-all"]
Inductive value :=
| VStr (s : string)
| VMsgs (ms : list message)
| VDocs (ds : list document)
| VDict (kvs : list (string * value)).

Inductive error :=
| KeyError (k : string)
| TypeError (what : string)
| UpstreamError (what : string).

Inductive result (A : Type) :=
| Ok (a : A)
| Err (e : error).
Arguments Ok {A} a.
Arguments Err {A} e.

(** Raising propagates through sequencing: [x ← r; k] is stdpp's bind
    notation at this instance. *)
Instance result_ret : MRet result := fun A a => Ok a.
Instance result_bind : MBind result := fun A B k r =>
  match r with
  | Ok a => k a
  | Err e => Err e
  end.

Instance role_eq_dec : EqDecision role.
Proof. solve_decision. Defined.
Instance message_eq_dec : EqDecision message.
Proof. solve_decision. Defined.

(** ** The history store *)

(** A [ChatMessageHistory] object is a heap cell holding its [messages];
    a location is the object's identity. *)
Abbreviation loc := nat (only parsing).
Abbreviation heap_t := (gmap nat (list message)) (only parsing).

Record builder := Builder {
  history_store : gmap string loc;
  heap : heap_t
}.

(** [__init__]: [self.history_store = {}]; no history object exists yet. *)
Definition init : builder := Builder ∅ ∅.

(** [ChatMessageHistory()]: a new object, distinct from every live one,
    with no messages. *)
Definition ChatMessageHistory (h : heap_t) : heap_t * loc :=
  let l := fresh (dom h) in (<[l := []]> h, l).

(** [self.history_store[session_id]] as an expression: raises [KeyError]
    on a missing key. *)
Definition subscript (d : gmap string loc) (k : string) : result loc :=
  match d !! k with
  | Some l => Ok l
  | None => Err (KeyError k)
  end.

Definition _get_history (self : builder) (session_id : string) : builder * result loc :=
  let self' :=
    match history_store self !! session_id with
    | None =>
        let '(h, l) := ChatMessageHistory (heap self) in
        Builder (<[session_id := l]> (history_store self)) h
    | Some _ => self
    end in
  (self', subscript (history_store self') session_id).

(** [hist.messages] and [hist.add_messages(ms)] on the object at [l]. *)
Definition messages (self : builder) (l : loc) : list message :=
  default [] (heap self !! l).

Definition add_messages (self : builder) (l : loc) (ms : list message) : builder :=
  Builder (history_store self) (alter (fun old => old ++ ms) l (heap self)).

(** The messages of a session as a caller sees them: those of the object
    registered under the id, none when the id is not registered. *)
Definition session_messages (self : builder) (session_id : string) : list message :=
  match history_store self !! session_id with
  | Some l => messages self l
  | None => []
  end.

(** What can happen to a builder between two calls of [_get_history]. *)
Inductive op :=
| OpGetHistory (session_id : string)
| OpAddMessages (l : loc) (ms : list message).

Definition run_op (self : builder) (o : op) : builder :=
  match o with
  | OpGetHistory s => fst (_get_history self s)
  | OpAddMessages l ms => add_messages self l ms
  end.

Definition run_ops (os : list op) (self : builder) : builder :=
  foldl run_op self os.

(** Every registered history is a live object, and no object is registered
    under two ids. Both hold of [init] and are kept by every operation. *)
Definition wf (self : builder) : Prop :=
  (∀ s l, history_store self !! s = Some l → is_Some (heap self !! l))
  ∧ (∀ s t l, history_store self !! s = Some l →
               history_store self !! t = Some l → s = t).

(** ** Dicts and strings *)

Fixpoint dict_get (kvs : list (string * value)) (k : string) : option value :=
  match kvs with
  | [] => None
  | (k', v) :: rest => if decide (k' = k) then Some v else dict_get rest k
  end.

(** [{**d, k: v}]: an existing key keeps its position, a new one goes last. *)
Fixpoint dict_set (kvs : list (string * value)) (k : string) (v : value)
  : list (string * value) :=
  match kvs with
  | [] => [(k, v)]
  | (k', v') :: rest =>
      if decide (k' = k) then (k, v) :: rest else (k', v') :: dict_set rest k v
  end.

(** [x.get(k)] and [x[k]] on a value that has to be a dict. *)
Definition get (x : value) (k : string) : option value :=
  match x with
  | VDict kvs => dict_get kvs k
  | _ => None
  end.

Definition getitem (x : value) (k : string) : result value :=
  match x with
  | VDict kvs =>
      match dict_get kvs k with
      | Some v => Ok v
      | None => Err (KeyError k)
      end
  | _ => Err (TypeError "not subscriptable")
  end.

(** Python truthiness, as used by [not x.get("chat_history", False)]. *)
Definition truthy (v : value) : bool :=
  match v with
  | VStr s => negb (bool_decide (s = ""))
  | VMsgs ms => negb (bool_decide (ms = []))
  | VDocs [] => false
  | VDocs (_ :: _) => true
  | VDict [] => false
  | VDict (_ :: _) => true
  end.

Definition as_str (v : value) : result string :=
  match v with
  | VStr s => Ok s
  | _ => Err (TypeError "expected str")
  end.

Definition nl : string := String "010"%char "".
Definition dq : string := String "034"%char "".

(** ["\n".join(ls)] and [sep.join(ls)]. *)
Fixpoint join (sep : string) (ls : list string) : string :=
  match ls with
  | [] => ""
  | [l] => l
  | l :: rest => l +:+ sep +:+ join sep rest
  end.

Definition lines (ls : list string) : string := join nl ls.

(** ** Prompt templates *)

(** A template string split at its [{variable}] fields. *)
Inductive fragment :=
| Lit (s : string)
| Var (name : string).

Inductive message_template :=
| TMessage (r : role) (t : list fragment)
| MessagesPlaceholder (variable_name : string).

Definition fragment_vars (f : fragment) : list string :=
  match f with
  | Lit _ => []
  | Var n => [n]
  end.

Definition template_vars (t : message_template) : list string :=
  match t with
  | TMessage _ fs => concat (map fragment_vars fs)
  | MessagesPlaceholder n => [n]
  end.

(** [prompt.input_variables] of [ChatPromptTemplate.from_messages(ts)]:
    every field of every message and every (non-optional) placeholder. *)
Definition input_variables (ts : list message_template) : list string :=
  concat (map template_vars ts).

Definition missing (ts : list message_template) (kvs : list (string * value))
  : list string :=
  filter (fun v => dict_get kvs v = None) (input_variables ts).

(** ** Observable events and runs *)

(** The pipeline stages, and what an observer of one invocation can see:
    a stage starting, ending or raising, a request to the chat model (with
    the stage that makes it), a search request to the vector store. *)
Inductive stage := Rewriting | Retrieving | Summarizing | Generating.

Instance stage_eq_dec : EqDecision stage.
Proof. solve_decision. Defined.

Inductive event :=
| Start (s : stage)
| End (s : stage)
| Raised (s : stage) (e : error)
| LLMCall (s : stage) (prompt : list message)
| Search (query : string) (k : nat).

(** The shape of one invocation: sequencing for [a | b], branching for the
    steps of a runnable map, which are submitted together and joined. *)
Inductive trace :=
| TNil
| TEv (e : event)
| TSeq (t1 t2 : trace)
| TPar (t1 t2 : trace).

Inductive interleave {A : Type} : list A → list A → list A → Prop :=
| interleave_nil : interleave [] [] []
| interleave_l a l1 l2 l : interleave l1 l2 l → interleave (a :: l1) l2 (a :: l)
| interleave_r a l1 l2 l : interleave l1 l2 l → interleave l1 (a :: l2) (a :: l).

(** The event sequences an invocation of shape [t] can show. *)
Inductive linear : trace → list event → Prop :=
| linear_nil : linear TNil []
| linear_ev e : linear (TEv e) [e]
| linear_seq t1 t2 l1 l2 :
    linear t1 l1 → linear t2 l2 → linear (TSeq t1 t2) (l1 ++ l2)
| linear_par t1 t2 l1 l2 l :
    linear t1 l1 → linear t2 l2 → interleave l1 l2 l → linear (TPar t1 t2) l.

(** One schedule that always exists: every map step runs to its end before
    the next one starts. *)
Fixpoint sequential (t : trace) : list event :=
  match t with
  | TNil => []
  | TEv e => [e]
  | TSeq t1 t2 => sequential t1 ++ sequential t2
  | TPar t1 t2 => sequential t1 ++ sequential t2
  end.

(** A run: what happened and what came out. *)
Record M (A : Type) := Run { trace_of : trace; outcome : result A }.
Arguments Run {A} trace_of outcome.
Arguments trace_of {A} m.
Arguments outcome {A} m.

Instance M_ret : MRet M := fun A a => Run TNil (Ok a).
Instance M_bind : MBind M := fun A B k m =>
  match outcome m with
  | Ok a => Run (TSeq (trace_of m) (trace_of (k a))) (outcome (k a))
  | Err e => Run (trace_of m) (Err e)
  end.

Definition lift {A : Type} (r : result A) : M A := Run TNil r.

Definition stage_run {A : Type} (s : stage) (body : M A) : M A :=
  Run (TSeq (TEv (Start s))
         (TSeq (trace_of body)
            (TEv (match outcome body with
                  | Ok _ => End s
                  | Err e => Raised s e
                  end))))
      (outcome body).

(** [a | b] *)
Definition pipe {A B C : Type} (a : A → M B) (b : B → M C) (x : A) : M C :=
  y ← a x; b y.

Definition RunnablePassthrough (x : value) : M value := mret x.

(** A dict of runnables used as a runnable: every step receives the same
    input; the steps run side by side and all of them run to their end; the
    output has exactly the keys of the map, and the first step (in key
    order) that raised decides the exception. *)
Fixpoint RunnableParallel (steps : list (string * (value → M value))) (x : value)
  : M (list (string * value)) :=
  match steps with
  | [] => Run TNil (Ok [])
  | (k, step) :: rest =>
      let m := step x in
      let ms := RunnableParallel rest x in
      Run (TPar (trace_of m) (trace_of ms))
          (v ← outcome m; vs ← outcome ms; Ok ((k, v) :: vs))
  end.

Definition RunnableMap (steps : list (string * (value → M value))) (x : value)
  : M value :=
  let m := RunnableParallel steps x in
  Run (trace_of m) (kvs ← outcome m; Ok (VDict kvs)).

(** ** The chain of [build_chain] *)

Section Chain.

(** The external collaborators: the hosted chat model (a completion text,
    or a failure), the vector store's similarity search (the [k] best
    documents for a query, or a failure), and Python's [str] of a value that
    is not a string. *)
Variable groq : list message → result string.
Variable similarity_search : string → nat → result (list document).
Variable py_str : value → string.

(** [self.model] invoked from stage [s] on a rendered prompt. *)
Definition model (s : stage) (prompt : list message) : M message :=
  Run (TEv (LLMCall s prompt)) (text ← groq prompt; Ok (AIMessage text)).

Definition StrOutputParser (m : message) : string := content m.

(** [vector_store.as_retriever(search_kwargs={"k": k})] *)
Definition as_retriever (k : nat) (query : string) : M (list document) :=
  stage_run Retrieving (Run (TEv (Search query k)) (similarity_search query k)).

Definition format_value (v : value) : string :=
  match v with
  | VStr s => s
  | _ => py_str v
  end.

Definition format_fragment (kvs : list (string * value)) (f : fragment) : string :=
  match f with
  | Lit s => s
  | Var n => from_option format_value "" (dict_get kvs n)
  end.

Definition format_template (kvs : list (string * value)) (t : message_template)
  : result (list message) :=
  match t with
  | TMessage r fs => Ok [Message r (join "" (map (format_fragment kvs) fs))]
  | MessagesPlaceholder n =>
      match dict_get kvs n with
      | Some (VMsgs ms) => Ok ms
      | Some _ => Err (TypeError "placeholder expects a list of messages")
      | None => Err (KeyError n)
      end
  end.

Fixpoint format_templates (kvs : list (string * value)) (ts : list message_template)
  : result (list message) :=
  match ts with
  | [] => Ok []
  | t :: rest =>
      ms ← format_template kvs t;
      ms' ← format_templates kvs rest;
      Ok (ms ++ ms')
  end.

(** [prompt.invoke(x)]: the input has to be a dict that provides every
    input variable of the prompt, otherwise [KeyError]. *)
Definition format_messages (ts : list message_template) (x : value)
  : result (list message) :=
  match x with
  | VDict kvs =>
      match missing ts kvs with
      | [] => format_templates kvs ts
      | k :: _ => Err (KeyError k)
      end
  | _ => Err (TypeError "expected mapping type as input to ChatPromptTemplate")
  end.

Definition retriever : string → M (list document) := as_retriever 3.

(** 1) Rewrite to standalone using chat history *)
Definition rewrite_prompt : list message_template :=
  [ TMessage system
      [Lit "Rewrite the latest user message as a standalone question using chat_history."];
    MessagesPlaceholder "chat_history";
    TMessage human [Var "input"] ].

(** A retriever as a step of a sequence: its input has to be the query
    string, its output is the list of documents. *)
Definition retrieve (retriever : string → M (list document)) (q : value) : M value :=
  query ← lift (as_str q);
  docs ← retriever query;
  mret (VDocs docs).

(** [create_history_aware_retriever(llm, retriever, prompt)]: a branch on
    [not x.get("chat_history", False)]. Without history the arm is
    [(lambda x: x["input"]) | retriever]: the input goes to the retriever as
    it is. With history the arm is [prompt | llm | StrOutputParser() |
    retriever]: the prompt and the model produce the search query. In both
    arms the step before the retriever is the Rewriting stage. *)
Definition create_history_aware_retriever
    (llm : stage → list message → M message)
    (retriever : string → M (list document))
    (prompt : list message_template) (x : value) : M value :=
  if negb (from_option truthy false (get x "chat_history"))
  then pipe (fun x => stage_run Rewriting (lift (getitem x "input")))
            (retrieve retriever) x
  else pipe (fun x => stage_run Rewriting
                        (p ← lift (format_messages prompt x);
                         m ← llm Rewriting p;
                         mret (VStr (StrOutputParser m))))
            (retrieve retriever) x.

Definition history_aware_retriever : value → M value :=
  create_history_aware_retriever model retriever rewrite_prompt.

(** 2) Summarize chat history into actionable memory *)
Definition memory_system : string :=
  lines
    [ "From chat_history and the latest user input, extract the user's";
      "preferences/constraints as short bullets: budget, brands, features,";
      "use-case, dislikes, previously chosen items.";
      "If nothing explicit, return " +:+ dq +:+ "none" +:+ dq +:+ "." ].

Definition memory_prompt : list message_template :=
  [ TMessage system [Lit memory_system];
    MessagesPlaceholder "chat_history";
    TMessage human [Lit "New request: "; Var "input"] ].

(** [memory_prompt | self.model | StrOutputParser()] *)
Definition memory_chain (x : value) : M value :=
  stage_run Summarizing
    (p ← lift (format_messages memory_prompt x);
     m ← model Summarizing p;
     mret (VStr (StrOutputParser m))).

(** 3) QA prompt that uses memory, context and general knowledge *)
Definition qa_system_head : string :=
  lines
    [ "You are a product recommender. Use THREE signals:";
      "";
      "1) **chat_history/memory**: tailor suggestions to the user's stated prefs/constraints.";
      "2) **CONTEXT** (retrieved docs): the source of truth for product facts (names, specs, reviews).";
      "   If a fact isn't in CONTEXT, don't assert it as certain.";
      "3) **General knowledge**: give generic buying tips, but never contradict CONTEXT.";
      "";
      "If the question is about the conversation itself (e.g., " +:+ dq
        +:+ "what did I ask first?" +:+ dq +:+ "),";
      "answer from chat_history/memory.";
      "";
      "Format answers in clean Markdown: brief TL;DR, short bullets, no rambling.";
      "";
      "MEMORY:";
      "" ].

Definition qa_system : list fragment :=
  [ Lit qa_system_head; Var "memory";
    Lit (lines [""; ""; "CONTEXT:"; ""]); Var "context" ].

Definition qa_prompt : list message_template :=
  [ TMessage system qa_system;
    MessagesPlaceholder "chat_history";
    TMessage human [Lit "QUESTION: "; Var "input"] ].

(** [format_docs] of [create_stuff_documents_chain]: the page contents of
    [inputs["context"]], joined by a blank line. *)
Definition format_docs (x : value) : result value :=
  c ← getitem x "context";
  match c with
  | VDocs ds => Ok (VStr (join (nl +:+ nl) (map page_content ds)))
  | _ => Err (TypeError "context is not a sequence of documents")
  end.

(** [RunnablePassthrough.assign] with one keyword [k = f]: the input dict
    with [k] set to [f(input)]; every other key is kept. *)
Definition assign (k : string) (f : value → result value) (x : value) : result value :=
  match x with
  | VDict kvs => v ← f x; Ok (VDict (dict_set kvs k v))
  | _ => Err (TypeError "assign expects a dict")
  end.

(** [create_stuff_documents_chain(llm, prompt)]:
    [RunnablePassthrough.assign(context=format_docs) | prompt | llm | StrOutputParser()] *)
Definition create_stuff_documents_chain
    (llm : stage → list message → M message)
    (prompt : list message_template) (x : value) : M value :=
  stage_run Generating
    (x' ← lift (assign "context" format_docs x);
     p ← lift (format_messages prompt x');
     m ← llm Generating p;
     mret (VStr (StrOutputParser m))).

Definition combine_docs_chain : value → M value :=
  create_stuff_documents_chain model qa_prompt.

(** The runnable map piped into the answer chain. *)
Definition rag_map : value → M value :=
  RunnableMap
    [ ("context", history_aware_retriever);
      ("memory", memory_chain);
      ("input", RunnablePassthrough) ].

Definition rag_with_memory : value → M value :=
  pipe rag_map combine_docs_chain.

(** ** [RunnableWithMessageHistory] *)

(** The messages to record for an output, as the [on_end] listener reads
    them off the finished run. The run holds its outputs as a dict: a dict
    output as it is, any other output [out] as [{"output": out}]. The
    listener subscripts that dict with [output_messages_key]; a string found
    there is the assistant's message. When the key is missing it raises
    (a dict with a ["generations"] entry is searched there for a message,
    which no value of this development holds). *)
Definition _get_output_messages (output_messages_key : string) (out : value)
  : result (list message) :=
  let outputs :=
    match out with
    | VDict kvs => kvs
    | _ => [("output", out)]
    end in
  v ← match dict_get outputs output_messages_key with
      | Some v => Ok v
      | None =>
          match dict_get outputs "generations" with
          | Some _ => Err (TypeError "no message in the generations entry")
          | None => Err (KeyError output_messages_key)
          end
      end;
  match v with
  | VStr s => Ok [AIMessage s]
  | VMsgs ms => Ok ms
  | _ => Err (TypeError "expected str, message or list of messages")
  end.

(** One call [chain.invoke({input_messages_key: input},
    config={"configurable": {"session_id": session_id}})]:
    - the session's history object is fetched with [get_session_history];
    - a copy of its messages is inserted under [history_messages_key];
    - the wrapped runnable runs on that dict;
    - when it ends without raising, the [on_end] listener adds the input
      message and the output messages to the history object; an exception
      inside the listener is logged, not raised, so an output it cannot
      read leaves the history as it is and the caller still gets the
      output;
    - when it raises, the listener does not run and the exception goes to
      the caller. *)
Definition RunnableWithMessageHistory
    (runnable : value → M value)
    (get_session_history : builder → string → builder * result loc)
    (input_messages_key history_messages_key output_messages_key : string)
    (self : builder) (input : string) (session_id : string) : builder * M value :=
  let '(self1, rh) := get_session_history self session_id in
  match rh with
  | Err e => (self1, Run TNil (Err e))
  | Ok hist =>
      let x := VDict [ (input_messages_key, VStr input);
                       (history_messages_key, VMsgs (messages self1 hist)) ] in
      let m := runnable x in
      match outcome m with
      | Err _ => (self1, m)
      | Ok out =>
          match _get_output_messages output_messages_key out with
          | Ok oms => (add_messages self1 hist ([HumanMessage input] ++ oms), m)
          | Err _ => (self1, m)
          end
      end
  end.

(** What [build_chain] returns, as the function its [invoke] computes. *)
Definition build_chain : builder → string → string → builder * M value :=
  RunnableWithMessageHistory rag_with_memory _get_history
    "input" "chat_history" "answer".

End Chain.

(** ** Reading orderings off the shape of a run *)

(** Some event of [t] satisfies [P]. *)
Fixpoint occurs (P : event → bool) (t : trace) : bool :=
  match t with
  | TNil => false
  | TEv e => P e
  | TSeq t1 t2 | TPar t1 t2 => occurs P t1 || occurs P t2
  end.

(** A sufficient check that, however the branches of [t] are scheduled,
    every [Q] event comes after some [P] event: in a sequence either the
    first part already shows [P], or the second part is checked too; of two
    branches only one may show [Q] at all, and that one is checked. *)
Fixpoint guarded (P Q : event → bool) (t : trace) : bool :=
  match t with
  | TNil => true
  | TEv e => negb (Q e)
  | TSeq t1 t2 => guarded P Q t1 && (occurs P t1 || guarded P Q t2)
  | TPar t1 t2 =>
      (guarded P Q t1 && negb (occurs Q t2))
      || (guarded P Q t2 && negb (occurs Q t1))
  end.

(** In [l], every [Q] event has a [P] event somewhere before it. *)
Definition preceded (P Q : event → bool) (l : list event) : Prop :=
  ∀ pre e post, l = pre ++ e :: post → Q e = true → ∃ e', e' ∈ pre ∧ P e' = true.

Definition is_start (s : stage) (e : event) : bool :=
  match e with
  | Start s' => bool_decide (s' = s)
  | _ => false
  end.

Definition is_end (s : stage) (e : event) : bool :=
  match e with
  | End s' => bool_decide (s' = s)
  | _ => false
  end.

Definition is_llm_call (s : stage) (e : event) : bool :=
  match e with
  | LLMCall s' _ => bool_decide (s' = s)
  | _ => false
  end.

Definition is_search (e : event) : bool :=
  match e with
  | Search _ _ => true
  | _ => false
  end.

(** ** Stand-in collaborators for worked examples *)

Definition echo_model (prompt : list message) : result string := Ok "ok".

Definition one_doc_search (query : string) (k : nat) : result (list document) :=
  Ok [Document query []].

Definition down_model (prompt : list message) : result string :=
  Err (UpstreamError "rate limit").

Definition opaque_str (v : value) : string := "<object>".

(** A wrapped runnable that answers with its input message. *)
Definition echo_runnable (x : value) : M value :=
  v ← lift (getitem x "input"); mret v.

(** A first request, and a builder in which session ["s1"] already holds
    one recorded turn. *)
Definition first_request : string := "Recommend a budget phone under $300".

Definition one_turn : list message :=
  [HumanMessage first_request; AIMessage "Try the A12."].

Definition seeded : builder :=
  let '(b, r) := _get_history init "s1" in
  match r with
  | Ok l => add_messages b l one_turn
  | Err _ => b
  end.

(** ** Sequences of calls, counts, whole turns *)

(** The builder after a sequence of [invoke] calls, each an input and a
    session id, whatever each call returned or raised. *)
Definition invoke_all (chain : builder → string → string → builder * M value)
    (calls : list (string * string)) (self : builder) : builder :=
  foldl (fun b c => fst (chain b (fst c) (snd c))) self calls.

Definition is_llm (e : event) : bool :=
  match e with
  | LLMCall _ _ => true
  | _ => false
  end.

Fixpoint count (P : event → bool) (l : list event) : nat :=
  match l with
  | [] => 0
  | e :: rest => (if P e then 1 else 0) + count P rest
  end.

(** A history made of whole turns: each user message is followed by the
    assistant's message for it. *)
Fixpoint whole_turns (ms : list message) : bool :=
  match ms with
  | [] => true
  | Message human _ :: Message ai _ :: rest => whole_turns rest
  | _ => false
  end.

(** The dict the wrapped chain is run on in one invocation, and the two
    requests its prompts render to. *)
Definition turn_input (input : string) (hist : list message) : value :=
  VDict [("input", VStr input); ("chat_history", VMsgs hist)].

Definition rewrite_request (input : string) (hist : list message) : list message :=
  SystemMessage
    "Rewrite the latest user message as a standalone question using chat_history."
  :: hist ++ [HumanMessage input].

Definition memory_request (input : string) (hist : list message) : list message :=
  SystemMessage memory_system :: hist ++ [HumanMessage ("New request: " +:+ input)].

(** The query for the retriever: the input itself without history, the
    rewriting model's completion with history. *)
Definition standalone_query (groq : list message → result string)
    (input : string) (hist : list message) : result string :=
  match hist with
  | [] => Ok input
  | _ :: _ => groq (rewrite_request input hist)
  end.

(** A wrapped runnable that always answers [a], as a bare string and as a
    dict holding it under ["answer"]. *)
Definition fixed_answer (a : string) (x : value) : M value := mret (VStr a).

Definition answer_runnable (a : string) (x : value) : M value :=
  mret (VDict [("answer", VStr a)]).

(** * Properties *)

(** ** The history store *)

Lemma _get_history_registered self s l :
  history_store self !! s = Some l → _get_history self s = (self, Ok l).
Proof.
  intros H. unfold _get_history, subscript. rewrite H. simpl. by rewrite H.
Qed.

Lemma _get_history_unseen self s :
  history_store self !! s = None →
  _get_history self s =
    (Builder (<[s := fresh (dom (heap self))]> (history_store self))
             (<[fresh (dom (heap self)) := []]> (heap self)),
     Ok (fresh (dom (heap self)))).
Proof.
  intros H. unfold _get_history, subscript, ChatMessageHistory.
  rewrite H. simpl. by rewrite lookup_insert_eq.
Qed.

Lemma _get_history_returns self s :
  ∃ l, snd (_get_history self s) = Ok l
       ∧ history_store (fst (_get_history self s)) !! s = Some l.
Proof.
  destruct (history_store self !! s) as [l|] eqn:E.
  - exists l. by rewrite (_get_history_registered _ _ _ E).
  - exists (fresh (dom (heap self))).
    rewrite (_get_history_unseen _ _ E). simpl. by rewrite lookup_insert_eq.
Qed.

Lemma run_op_keeps_binding self o s l :
  history_store self !! s = Some l → history_store (run_op self o) !! s = Some l.
Proof.
  intros H. destruct o as [s'|l' ms]; cbn [run_op]; [|done].
  destruct (history_store self !! s') as [l0|] eqn:E.
  - by rewrite (_get_history_registered _ _ _ E).
  - rewrite (_get_history_unseen _ _ E). simpl.
    rewrite lookup_insert_ne; [done|]. intros ->. congruence.
Qed.

Lemma run_ops_keeps_binding os self s l :
  history_store self !! s = Some l → history_store (run_ops os self) !! s = Some l.
Proof.
  revert self. induction os as [|o os IH]; intros self H; [done|].
  apply IH. by apply run_op_keeps_binding.
Qed.

Lemma wf_init : wf init.
Proof.
  split.
  - intros s l H. simpl in H. by rewrite lookup_empty in H.
  - intros s t l H. simpl in H. by rewrite lookup_empty in H.
Qed.

Lemma fresh_not_registered self s l :
  wf self → history_store self !! s = Some l → l ≠ fresh (dom (heap self)).
Proof.
  intros [Hlive _] H ->. apply Hlive in H. apply elem_of_dom in H.
  by apply is_fresh in H.
Qed.

Lemma wf_get_history self s : wf self → wf (fst (_get_history self s)).
Proof.
  intros Hwf. destruct (history_store self !! s) as [l0|] eqn:E.
  - by rewrite (_get_history_registered _ _ _ E).
  - rewrite (_get_history_unseen _ _ E).
    assert (Hfresh : ∀ s' l, history_store self !! s' = Some l →
                       l ≠ fresh (dom (heap self)))
      by (intros s' l; by apply fresh_not_registered).
    destruct Hwf as [Hlive Hinj]. split; simpl.
    + intros s' l'. destruct (decide (s = s')) as [->|Hne].
      * rewrite lookup_insert_eq. intros [= <-]. rewrite lookup_insert_eq. eauto.
      * rewrite lookup_insert_ne by done. intros H'.
        destruct (Hlive _ _ H') as [ms Hms].
        destruct (decide (fresh (dom (heap self)) = l')) as [<-|Hl].
        -- rewrite lookup_insert_eq. eauto.
        -- rewrite lookup_insert_ne by done. eauto.
    + intros s1 s2 l.
      destruct (decide (s = s1)) as [<-|H1], (decide (s = s2)) as [<-|H2];
        rewrite ?lookup_insert_eq, ?lookup_insert_ne by done.
      * done.
      * intros [= <-] H'. by apply Hfresh in H'.
      * intros H' [= <-]. by apply Hfresh in H'.
      * apply Hinj.
Qed.

Lemma wf_add_messages self l ms : wf self → wf (add_messages self l ms).
Proof.
  intros [Hlive Hinj]. split; simpl; [|done].
  intros s l' H. destruct (Hlive _ _ H) as [ms' Hms'].
  destruct (decide (l = l')) as [->|Hne].
  - rewrite lookup_alter_eq, Hms'. simpl. eauto.
  - rewrite lookup_alter_ne by done. eauto.
Qed.

Lemma wf_run_ops os self : wf self → wf (run_ops os self).
Proof.
  revert self. induction os as [|o os IH]; intros self H; [done|].
  apply IH. destruct o; cbn [run_op]; auto using wf_get_history, wf_add_messages.
Qed.

(** Every builder reached from [__init__] by history calls and appends. *)
Lemma wf_reachable os : wf (run_ops os init).
Proof. apply wf_run_ops, wf_init. Qed.

(** C5. The first [_get_history] call with an id that is not registered
    creates a new history object, distinct from every live one, with no
    messages, registers it under the id and returns it; whatever calls and
    appends follow, [_get_history] with that id returns the same object and
    changes nothing; and for every id the call returns an object, it never
    raises. *)
Theorem get_history_contract (self : builder) (session_id : string) :
  ∃ l,
    snd (_get_history self session_id) = Ok l
    ∧ history_store (fst (_get_history self session_id)) !! session_id = Some l
    ∧ (history_store self !! session_id = None →
         (l ∉ dom (heap self))
         ∧ heap (fst (_get_history self session_id)) !! l = Some []
         ∧ session_messages (fst (_get_history self session_id)) session_id = [])
    ∧ (∀ os,
         let later := run_ops os (fst (_get_history self session_id)) in
         _get_history later session_id = (later, Ok l)).
Proof.
  destruct (_get_history_returns self session_id) as (l & Hret & Hreg).
  exists l. split_and!; [done|done| |].
  - intros E. rewrite (_get_history_unseen _ _ E) in Hret |- *. simpl in *.
    injection Hret as <-. split_and!.
    + apply is_fresh.
    + by rewrite lookup_insert_eq.
    + unfold session_messages, messages. simpl. by rewrite !lookup_insert_eq.
  - intros os later. apply _get_history_registered.
    by apply run_ops_keeps_binding.
Qed.

Lemma get_history_contract_witness :
  ∃ l,
    snd (_get_history init "s1") = Ok l
    ∧ history_store (fst (_get_history init "s1")) !! "s1" = Some l
    ∧ (history_store init !! "s1" = None →
         (l ∉ dom (heap init))
         ∧ heap (fst (_get_history init "s1")) !! l = Some []
         ∧ session_messages (fst (_get_history init "s1")) "s1" = [])
    ∧ (∀ os,
         let later := run_ops os (fst (_get_history init "s1")) in
         _get_history later "s1" = (later, Ok l)).
Proof. exact (get_history_contract init "s1"). Defined.

(** C10. For distinct ids [s] and [t], [_get_history s] leaves the binding
    of [t], the object registered under [t] and its messages as they were;
    and when [s] is registered already the call changes nothing at all. *)
Theorem get_history_frame (self : builder) (s t : string) :
  wf self →
  s ≠ t →
  let self' := fst (_get_history self s) in
  history_store self' !! t = history_store self !! t
  ∧ (∀ l, history_store self !! t = Some l → heap self' !! l = heap self !! l)
  ∧ session_messages self' t = session_messages self t
  ∧ (is_Some (history_store self !! s) → self' = self).
Proof.
  intros Hwf Hne self'. subst self'.
  destruct (history_store self !! s) as [l0|] eqn:E.
  - rewrite (_get_history_registered _ _ _ E). simpl. by split_and!.
  - rewrite (_get_history_unseen _ _ E). simpl.
    assert (Hl : ∀ l, history_store self !! t = Some l →
                 <[fresh (dom (heap self)) := []]> (heap self) !! l = heap self !! l).
    { intros l Hl. rewrite lookup_insert_ne; [done|].
      intros Heq. symmetry in Heq. by eapply fresh_not_registered. }
    split_and!.
    + by rewrite lookup_insert_ne.
    + done.
    + unfold session_messages, messages. simpl. rewrite lookup_insert_ne by done.
      destruct (history_store self !! t) as [l|] eqn:Et; [|done].
      by rewrite Hl.
    + by intros [? [=]].
Qed.

Lemma get_history_frame_witness :
  let self := fst (_get_history init "t") in
  let self' := fst (_get_history self "s") in
  history_store self' !! "t" = history_store self !! "t"
  ∧ (∀ l, history_store self !! "t" = Some l → heap self' !! l = heap self !! l)
  ∧ session_messages self' "t" = session_messages self "t"
  ∧ (is_Some (history_store self !! "s") → self' = self).
Proof.
  apply (get_history_frame (fst (_get_history init "t")) "s" "t").
  - apply wf_get_history, wf_init.
  - discriminate.
Defined.

(** ** Schedules of a run *)

Lemma interleave_app {A : Type} (l1 l2 : list A) : interleave l1 l2 (l1 ++ l2).
Proof.
  induction l1 as [|a l1 IH]; simpl.
  - induction l2; constructor; auto.
  - by constructor.
Qed.

Lemma interleave_elem_of {A : Type} (l1 l2 l : list A) (x : A) :
  interleave l1 l2 l → x ∈ l ↔ x ∈ l1 ∨ x ∈ l2.
Proof.
  induction 1 as [|a l1 l2 l Hi IH|a l1 l2 l Hi IH].
  - rewrite elem_of_nil. tauto.
  - rewrite !elem_of_cons, IH. tauto.
  - rewrite !elem_of_cons, IH. tauto.
Qed.

(** Where an element of a merge came from, and what was before it there. *)
Lemma interleave_split {A : Type} (l1 l2 pre post : list A) (x : A) :
  interleave l1 l2 (pre ++ x :: post) →
  (∃ pre1 post1, l1 = pre1 ++ x :: post1 ∧ ∀ y, y ∈ pre1 → y ∈ pre)
  ∨ (∃ pre2 post2, l2 = pre2 ++ x :: post2 ∧ ∀ y, y ∈ pre2 → y ∈ pre).
Proof.
  intros H. remember (pre ++ x :: post) as l eqn:El.
  revert pre El. induction H as [|a l1 l2 l Hi IH|a l1 l2 l Hi IH]; intros pre El.
  - by destruct pre.
  - destruct pre as [|b pre]; simplify_eq/=.
    + left. exists [], l1. split; [done|]. by intros y Hy%elem_of_nil.
    + destruct (IH pre eq_refl) as [(p1 & q1 & -> & Hin)|(p2 & q2 & -> & Hin)].
      * left. exists (b :: p1), q1. split; [done|].
        intros y [->|Hy]%elem_of_cons; apply elem_of_cons; auto.
      * right. exists p2, q2. split; [done|].
        intros y Hy. apply elem_of_cons. auto.
  - destruct pre as [|b pre]; simplify_eq/=.
    + right. exists [], l2. split; [done|]. by intros y Hy%elem_of_nil.
    + destruct (IH pre eq_refl) as [(p1 & q1 & -> & Hin)|(p2 & q2 & -> & Hin)].
      * left. exists p1, q1. split; [done|].
        intros y Hy. apply elem_of_cons. auto.
      * right. exists (b :: p2), q2. split; [done|].
        intros y [->|Hy]%elem_of_cons; apply elem_of_cons; auto.
Qed.

Lemma app_split {A : Type} (l1 l2 pre post : list A) (x : A) :
  l1 ++ l2 = pre ++ x :: post →
  (∃ post1, l1 = pre ++ x :: post1)
  ∨ (∃ pre2, pre = l1 ++ pre2 ∧ l2 = pre2 ++ x :: post).
Proof.
  revert pre. induction l1 as [|a l1 IH]; intros pre E; simpl in E.
  - right. by exists pre.
  - destruct pre as [|b pre]; simpl in E; injection E as -> E.
    + left. by exists l1.
    + destruct (IH _ E) as [[post1 ->]|(pre2 & -> & ->)].
      * left. by exists post1.
      * right. by exists pre2.
Qed.

Lemma linear_sequential (t : trace) : linear t (sequential t).
Proof.
  induction t; simpl; try by constructor.
  eapply linear_par; eauto using interleave_app.
Qed.

Lemma linear_elem_of (t : trace) (l : list event) (e : event) :
  linear t l → e ∈ l ↔ e ∈ sequential t.
Proof.
  induction 1 as [|e0|t1 t2 l1 l2 H1 IH1 H2 IH2|t1 t2 l1 l2 l H1 IH1 H2 IH2 Hi]; simpl.
  - done.
  - done.
  - rewrite !elem_of_app. tauto.
  - rewrite (interleave_elem_of _ _ _ _ Hi), elem_of_app. tauto.
Qed.

Lemma occurs_sequential (P : event → bool) (t : trace) :
  occurs P t = true ↔ ∃ e, e ∈ sequential t ∧ P e = true.
Proof.
  induction t as [|e0|t1 IH1 t2 IH2|t1 IH1 t2 IH2]; simpl.
  - split; [done|]. by intros (e & He%elem_of_nil & _).
  - split.
    + intros H. exists e0. split; [apply list_elem_of_singleton|]; done.
    + by intros (e & ->%list_elem_of_singleton & H).
  - rewrite orb_true_iff, IH1, IH2. setoid_rewrite elem_of_app. split.
    + intros [(e & He & HP)|(e & He & HP)]; exists e; tauto.
    + intros (e & [He|He] & HP); [left|right]; exists e; tauto.
  - rewrite orb_true_iff, IH1, IH2. setoid_rewrite elem_of_app. split.
    + intros [(e & He & HP)|(e & He & HP)]; exists e; tauto.
    + intros (e & [He|He] & HP); [left|right]; exists e; tauto.
Qed.

Lemma occurs_linear (P : event → bool) (t : trace) (l : list event) (e : event) :
  linear t l → e ∈ l → P e = true → occurs P t = true.
Proof.
  intros Hl He HP. apply occurs_sequential. exists e.
  by rewrite <- (linear_elem_of _ _ _ Hl).
Qed.

Lemma linear_occurs (P : event → bool) (t : trace) (l : list event) :
  linear t l → occurs P t = true → ∃ e, e ∈ l ∧ P e = true.
Proof.
  intros Hl (e & He & HP)%occurs_sequential. exists e.
  by rewrite (linear_elem_of _ _ _ Hl).
Qed.

(** The check on the shape is right for every schedule. *)
Lemma guarded_sound (P Q : event → bool) (t : trace) (l : list event) :
  guarded P Q t = true → linear t l → preceded P Q l.
Proof.
  intros Hg Hl. revert Hg.
  induction Hl as [|e0|t1 t2 l1 l2 H1 IH1 H2 IH2|t1 t2 l1 l2 l H1 IH1 H2 IH2 Hi];
    simpl; intros Hg pre e post El HQ.
  - by destruct pre.
  - destruct pre as [|? [|]]; simplify_eq/=. by rewrite HQ in Hg.
  - apply andb_true_iff in Hg as [Hg1 Hg2].
    destruct (app_split _ _ _ _ _ El) as [[post1 ->]|(pre2 & -> & ->)].
    + by eapply IH1.
    + apply orb_true_iff in Hg2 as [Ho|Hg2].
      * destruct (linear_occurs _ _ _ H1 Ho) as (e' & He' & HP).
        exists e'. split; [|done]. apply elem_of_app. by left.
      * destruct (IH2 Hg2 pre2 e post eq_refl HQ) as (e' & He' & HP).
        exists e'. split; [|done]. apply elem_of_app. by right.
  - subst l.
    destruct (interleave_split _ _ _ _ _ Hi)
      as [(p1 & q1 & -> & Hin)|(p2 & q2 & -> & Hin)];
      apply orb_true_iff in Hg as [[Hg Hno]%andb_true_iff|[Hg Hno]%andb_true_iff].
    + destruct (IH1 Hg p1 e q1 eq_refl HQ) as (e' & He' & HP). eauto.
    + rewrite (occurs_linear Q _ _ e H1) in Hno; [done| |done].
      apply elem_of_app. right. by left.
    + rewrite (occurs_linear Q _ _ e H2) in Hno; [done| |done].
      apply elem_of_app. right. by left.
    + destruct (IH2 Hg p2 e q2 eq_refl HQ) as (e' & He' & HP). eauto.
Qed.

(** ** The chain *)

Lemma bind_ok {A B : Type} (m : M A) (k : A → M B) (a : A) :
  outcome m = Ok a →
  m ≫= k = Run (TSeq (trace_of m) (trace_of (k a))) (outcome (k a)).
Proof. intros H. unfold mbind, M_bind. by rewrite H. Qed.

Lemma bind_err {A B : Type} (m : M A) (k : A → M B) (e : error) :
  outcome m = Err e → m ≫= k = Run (trace_of m) (Err e).
Proof. intros H. unfold mbind, M_bind. by rewrite H. Qed.

Ltac run_cases := repeat first [progress simpl | case_match]; simplify_eq/=.

Section ChainProps.

Variable groq : list message → result string.
Variable similarity_search : string → nat → result (list document).
Variable py_str : value → string.

Local Abbreviation har := (history_aware_retriever groq similarity_search py_str).
Local Abbreviation mem := (memory_chain groq py_str).
Local Abbreviation rmap := (rag_map groq similarity_search py_str).
Local Abbreviation qa := (combine_docs_chain groq py_str).
Local Abbreviation rag := (rag_with_memory groq similarity_search py_str).
Local Abbreviation chain := (build_chain groq similarity_search py_str).

Lemma har_outcome x v : outcome (har x) = Ok v → ∃ docs, v = VDocs docs.
Proof.
  unfold history_aware_retriever, create_history_aware_retriever, pipe, retrieve,
    retriever, as_retriever, stage_run, lift, model.
  unfold mbind, M_bind, mret, M_ret.
  run_cases; intros; simplify_eq; eauto.
Qed.

Lemma mem_outcome x v : outcome (mem x) = Ok v → ∃ s, v = VStr s.
Proof.
  unfold memory_chain, stage_run, lift, model.
  unfold mbind, M_bind, mret, M_ret.
  run_cases; intros; simplify_eq; eauto.
Qed.

(** What the runnable map hands to the answer chain. *)
Lemma rag_map_outcome x v :
  outcome (rmap x) = Ok v →
  ∃ docs s, outcome (har x) = Ok (VDocs docs) ∧ outcome (mem x) = Ok (VStr s)
            ∧ v = VDict [("context", VDocs docs); ("memory", VStr s); ("input", x)].
Proof.
  unfold rag_map, RunnableMap. cbn [RunnableParallel trace_of outcome].
  unfold mbind, result_bind.
  destruct (outcome (har x)) as [c|] eqn:Hc; [|intros [=]].
  destruct (outcome (mem x)) as [m|] eqn:Hm; [|intros [=]].
  cbn [RunnablePassthrough mret M_ret outcome].
  intros [= <-].
  destruct (har_outcome _ _ Hc) as [docs ->].
  destruct (mem_outcome _ _ Hm) as [s ->]. eauto.
Qed.

Lemma rag_map_trace x :
  trace_of (rmap x)
  = TPar (trace_of (har x)) (TPar (trace_of (mem x)) (TPar TNil TNil)).
Proof. reflexivity. Qed.

(** The answer prompt asks for [chat_history], which the map's output does
    not have: rendering it raises before the model is called. *)
Lemma qa_rejects docs s x :
  qa (VDict [("context", VDocs docs); ("memory", VStr s); ("input", x)])
  = Run (TSeq (TEv (Start Generating))
           (TSeq (TSeq TNil TNil)
              (TEv (Raised Generating (KeyError "chat_history")))))
        (Err (KeyError "chat_history")).
Proof. reflexivity. Qed.

Lemma rag_with_memory_run x :
  rag x =
    match outcome (rmap x) with
    | Ok v =>
        Run (TSeq (trace_of (rmap x))
               (TSeq (TEv (Start Generating))
                  (TSeq (TSeq TNil TNil)
                     (TEv (Raised Generating (KeyError "chat_history"))))))
            (Err (KeyError "chat_history"))
    | Err e => Run (trace_of (rmap x)) (Err e)
    end.
Proof.
  unfold rag_with_memory, pipe.
  destruct (outcome (rmap x)) as [v|e] eqn:E.
  - rewrite (bind_ok _ _ _ E).
    destruct (rag_map_outcome _ _ E) as (docs & s & _ & _ & ->).
    by rewrite qa_rejects.
  - by rewrite (bind_err _ _ _ E).
Qed.

Lemma rag_with_memory_raises x : ∃ e, outcome (rag x) = Err e.
Proof. rewrite rag_with_memory_run. destruct (outcome (rmap x)); eauto. Qed.

(** *** Recording a turn *)

Lemma _get_history_session_messages self s t :
  wf self → session_messages (fst (_get_history self s)) t = session_messages self t.
Proof.
  intros Hwf. destruct (history_store self !! s) as [l0|] eqn:E.
  - by rewrite (_get_history_registered _ _ _ E).
  - rewrite (_get_history_unseen _ _ E). unfold session_messages, messages. simpl.
    destruct (decide (s = t)) as [<-|Hne].
    + by rewrite !lookup_insert_eq, E.
    + rewrite lookup_insert_ne by done.
      destruct (history_store self !! t) as [l|] eqn:Et; [|done].
      rewrite lookup_insert_ne; [done|].
      intros Heq. symmetry in Heq. by eapply fresh_not_registered.
Qed.

Lemma _get_history_messages self s l :
  snd (_get_history self s) = Ok l →
  messages (fst (_get_history self s)) l = session_messages self s.
Proof.
  destruct (history_store self !! s) as [l0|] eqn:E.
  - rewrite (_get_history_registered _ _ _ E). simpl. intros [= <-].
    unfold session_messages. by rewrite E.
  - rewrite (_get_history_unseen _ _ E). simpl. intros [= <-].
    unfold session_messages, messages. simpl. by rewrite lookup_insert_eq, E.
Qed.

Lemma add_messages_session self s l ms :
  wf self → history_store self !! s = Some l →
  session_messages (add_messages self l ms) s = session_messages self s ++ ms.
Proof.
  intros [Hlive _] H. unfold session_messages, messages. simpl. rewrite H.
  destruct (Hlive _ _ H) as [old Hold]. by rewrite lookup_alter_eq, Hold.
Qed.

Lemma add_messages_other self s t l ms :
  wf self → history_store self !! s = Some l → t ≠ s →
  session_messages (add_messages self l ms) t = session_messages self t.
Proof.
  intros [_ Hinj] H Hne. unfold session_messages, messages. simpl.
  destruct (history_store self !! t) as [l'|] eqn:Et; [|done].
  rewrite lookup_alter_ne; [done|]. intros <-. apply Hne. by eapply Hinj.
Qed.

(** What one call of the wrapper does, for any wrapped runnable: it runs
    the runnable on the input together with the session's messages so far,
    leaves every other session alone, and adds to this session the input
    and output messages exactly when the runnable ended without raising. *)
Lemma RunnableWithMessageHistory_run (runnable : value → M value) self input sid :
  wf self →
  let x := VDict [("input", VStr input);
                  ("chat_history", VMsgs (session_messages self sid))] in
  let r := RunnableWithMessageHistory runnable _get_history
             "input" "chat_history" "answer" self input sid in
  snd r = runnable x
  ∧ wf (fst r)
  ∧ (∀ t, t ≠ sid → session_messages (fst r) t = session_messages self t)
  ∧ session_messages (fst r) sid
    = session_messages self sid ++
        match outcome (runnable x) with
        | Ok out =>
            match _get_output_messages "answer" out with
            | Ok oms => HumanMessage input :: oms
            | Err _ => []
            end
        | Err _ => []
        end.
Proof.
  intros Hwf x r. subst x r. unfold RunnableWithMessageHistory.
  destruct (_get_history_returns self sid) as (l & Hret & Hreg).
  pose proof (wf_get_history self sid Hwf) as Hwf1.
  pose proof (_get_history_messages self sid l Hret) as Hmsgs.
  pose proof (_get_history_session_messages self sid) as Hsess.
  destruct (_get_history self sid) as [self1 rh]. simpl in *. subst rh.
  rewrite Hmsgs.
  set (m := runnable _).
  destruct (outcome m) as [out|e] eqn:Eo.
  - destruct (_get_output_messages "answer" out) as [oms|e] eqn:Em; simpl.
    + split_and!; [done|by apply wf_add_messages| |].
      * intros t Ht. rewrite (add_messages_other _ sid) by done. by apply Hsess.
      * rewrite (add_messages_session _ sid) by done. by rewrite Hsess.
    + split_and!; [done|done| |].
      * intros t _. by apply Hsess.
      * rewrite Hsess by done. by rewrite app_nil_r.
  - simpl. split_and!; [done|done| |].
    + intros t _. by apply Hsess.
    + rewrite Hsess by done. by rewrite app_nil_r.
Qed.

Lemma wrapper_snd (runnable : value → M value) self input sid :
  snd (RunnableWithMessageHistory runnable _get_history
         "input" "chat_history" "answer" self input sid)
  = runnable (VDict [("input", VStr input);
                     ("chat_history", VMsgs (session_messages self sid))]).
Proof.
  unfold RunnableWithMessageHistory.
  destruct (_get_history_returns self sid) as (l & Hret & _).
  pose proof (_get_history_messages self sid l Hret) as Hmsgs.
  destruct (_get_history self sid) as [self1 rh]. simpl in *. subst rh.
  rewrite Hmsgs. set (m := runnable _).
  destruct (outcome m) as [out|e]; [|done].
  by destruct (_get_output_messages "answer" out).
Qed.

Lemma chain_snd self input sid :
  snd (chain self input sid)
  = rag (VDict [("input", VStr input);
                ("chat_history", VMsgs (session_messages self sid))]).
Proof. apply wrapper_snd. Qed.

(** The prompts the rewriter and the summarizer render from the input of
    one invocation. *)
Lemma rewrite_prompt_rendered input hist :
  format_messages py_str rewrite_prompt
    (VDict [("input", VStr input); ("chat_history", VMsgs hist)])
  = Ok (SystemMessage
          "Rewrite the latest user message as a standalone question using chat_history."
        :: hist ++ [HumanMessage input]).
Proof. reflexivity. Qed.

Lemma memory_prompt_rendered input hist :
  format_messages py_str memory_prompt
    (VDict [("input", VStr input); ("chat_history", VMsgs hist)])
  = Ok (SystemMessage memory_system
        :: hist ++ [HumanMessage ("New request: " +:+ input)]).
Proof. reflexivity. Qed.

(** The summarizer relays the model's completion. *)
Lemma memory_chain_outcome input hist :
  outcome (mem (VDict [("input", VStr input); ("chat_history", VMsgs hist)]))
  = text ← groq (SystemMessage memory_system
                 :: hist ++ [HumanMessage ("New request: " +:+ input)]);
    Ok (VStr text).
Proof.
  unfold memory_chain, stage_run. cbn [outcome].
  rewrite memory_prompt_rendered. unfold lift, model, mbind, M_bind, result_bind.
  cbn [outcome]. by destruct (groq _).
Qed.

(** *** The events of the two branches *)

Ltac unfold_runs :=
  unfold history_aware_retriever, create_history_aware_retriever, memory_chain,
    pipe, retrieve, retriever, as_retriever, stage_run, lift, model;
  unfold mbind, M_bind, mret, M_ret.

Lemma har_rewriting_first x :
  guarded (is_end Rewriting) (is_start Retrieving) (trace_of (har x)) = true.
Proof. unfold_runs. run_cases; reflexivity. Qed.

Lemma har_no_generating x : occurs (is_start Generating) (trace_of (har x)) = false.
Proof. unfold_runs. run_cases; reflexivity. Qed.

Lemma mem_no_retrieving x : occurs (is_start Retrieving) (trace_of (mem x)) = false.
Proof. unfold_runs. run_cases; reflexivity. Qed.

Lemma mem_no_generating x : occurs (is_start Generating) (trace_of (mem x)) = false.
Proof. unfold_runs. run_cases; reflexivity. Qed.

Lemma mem_no_search x : occurs is_search (trace_of (mem x)) = false.
Proof. unfold_runs. run_cases; reflexivity. Qed.

Lemma mem_no_rewriting_call x :
  occurs (is_llm_call Rewriting) (trace_of (mem x)) = false.
Proof. unfold_runs. run_cases; reflexivity. Qed.

Lemma har_ends_retrieving x v :
  outcome (har x) = Ok v → occurs (is_end Retrieving) (trace_of (har x)) = true.
Proof. unfold_runs. run_cases; intros; simplify_eq; reflexivity. Qed.

Lemma mem_ends_summarizing x v :
  outcome (mem x) = Ok v → occurs (is_end Summarizing) (trace_of (mem x)) = true.
Proof. unfold_runs. run_cases; intros; simplify_eq; reflexivity. Qed.

(** *** Orderings in the whole pipeline *)

Lemma guarded_absent (P Q : event → bool) (t : trace) :
  occurs Q t = false → guarded P Q t = true.
Proof.
  induction t as [|e|t1 IH1 t2 IH2|t1 IH1 t2 IH2]; simpl; [done| | |].
  - by intros ->.
  - intros [H1 H2]%orb_false_iff. rewrite IH1, IH2 by done. by rewrite orb_true_r.
  - intros [H1 H2]%orb_false_iff. by rewrite IH1, H2.
Qed.

Lemma rag_rewriting_first x :
  guarded (is_end Rewriting) (is_start Retrieving) (trace_of (rag x)) = true.
Proof.
  assert (Hmap : guarded (is_end Rewriting) (is_start Retrieving)
                   (trace_of (rmap x)) = true).
  { rewrite rag_map_trace. cbn [guarded occurs].
    by rewrite har_rewriting_first, mem_no_retrieving. }
  rewrite rag_with_memory_run. destruct (outcome (rmap x)); cbn [trace_of guarded].
  - rewrite Hmap. cbn. by rewrite orb_true_r.
  - done.
Qed.

Lemma rag_map_no_generating x :
  occurs (is_start Generating) (trace_of (rmap x)) = false.
Proof.
  rewrite rag_map_trace. cbn [occurs].
  by rewrite har_no_generating, mem_no_generating.
Qed.

Lemma rag_generating_last x :
  guarded (is_end Retrieving) (is_start Generating) (trace_of (rag x)) = true
  ∧ guarded (is_end Summarizing) (is_start Generating) (trace_of (rag x)) = true.
Proof.
  pose proof (rag_map_no_generating x) as Hno.
  rewrite rag_with_memory_run. destruct (outcome (rmap x)) as [v|e] eqn:E;
    cbn [trace_of guarded]; rewrite !guarded_absent by done; [|done].
  destruct (rag_map_outcome _ _ E) as (docs & s & Hh & Hm & _).
  rewrite rag_map_trace. cbn [occurs].
  rewrite (har_ends_retrieving _ _ Hh), (mem_ends_summarizing _ _ Hm).
  by rewrite !orb_true_r.
Qed.

Lemma har_model_before_search input m hist :
  guarded (is_llm_call Rewriting) is_search
    (trace_of (har (VDict [("input", VStr input); ("chat_history", VMsgs (m :: hist))])))
  = true.
Proof. unfold_runs. run_cases; reflexivity. Qed.

Lemma rag_model_before_search input m hist :
  guarded (is_llm_call Rewriting) is_search
    (trace_of (rag (VDict [("input", VStr input); ("chat_history", VMsgs (m :: hist))])))
  = true.
Proof.
  set (x := VDict _).
  assert (Hmap : guarded (is_llm_call Rewriting) is_search (trace_of (rmap x)) = true).
  { rewrite rag_map_trace. cbn [guarded occurs].
    subst x. by rewrite har_model_before_search, mem_no_search. }
  rewrite rag_with_memory_run. destruct (outcome (rmap x)); cbn [trace_of guarded].
  - rewrite Hmap. cbn. by rewrite orb_true_r.
  - done.
Qed.

(** C6. Whatever the order in which the steps of the map make progress:
    the retriever never starts before the rewriting step has ended, and the
    answer chain never starts before both the retriever and the summarizer
    have ended; when the session has a history, the search request comes
    after the request to the rewriting model. *)
Theorem stages_ordered (self : builder) (input session_id : string) (l : list event) :
  linear (trace_of (snd (chain self input session_id))) l →
  preceded (is_end Rewriting) (is_start Retrieving) l
  ∧ preceded (is_end Retrieving) (is_start Generating) l
  ∧ preceded (is_end Summarizing) (is_start Generating) l
  ∧ (session_messages self session_id ≠ [] →
       preceded (is_llm_call Rewriting) is_search l).
Proof.
  rewrite chain_snd. intros Hl.
  destruct (rag_generating_last
              (VDict [("input", VStr input);
                      ("chat_history", VMsgs (session_messages self session_id))]))
    as [H2 H3].
  split_and!.
  - eapply guarded_sound; [apply rag_rewriting_first|done].
  - eapply guarded_sound; done.
  - eapply guarded_sound; done.
  - intros Hne. destruct (session_messages self session_id) as [|m hist]; [done|].
    eapply guarded_sound; [apply rag_model_before_search|done].
Qed.

(** *** What the retriever is asked *)

Lemma rag_sequential x :
  sequential (trace_of (rag x))
  = sequential (trace_of (har x)) ++ sequential (trace_of (mem x))
    ++ match outcome (rmap x) with
       | Ok _ => [Start Generating; Raised Generating (KeyError "chat_history")]
       | Err _ => []
       end.
Proof.
  rewrite rag_with_memory_run.
  destruct (outcome (rmap x)); cbn [trace_of sequential]; rewrite rag_map_trace;
    cbn [sequential]; by rewrite ?app_nil_r, <- ?app_assoc.
Qed.

Lemma not_occurs (P : event → bool) (t : trace) (e : event) :
  occurs P t = false → e ∈ sequential t → P e = false.
Proof.
  intros Hno He. destruct (P e) eqn:HP; [|done].
  assert (occurs P t = true) as Ho by (apply occurs_sequential; eauto).
  congruence.
Qed.

(** Events of the whole pipeline that only the retriever branch can show. *)
Lemma rag_event_from_har (P : event → bool) x e :
  occurs P (trace_of (mem x)) = false →
  P (Start Generating) = false →
  P (Raised Generating (KeyError "chat_history")) = false →
  P e = true →
  e ∈ sequential (trace_of (rag x)) → e ∈ sequential (trace_of (har x)).
Proof.
  intros Hmem Hs Hr HP. rewrite rag_sequential, !elem_of_app.
  intros [He|[He|He]]; [done| |].
  - apply (not_occurs _ _ _ Hmem) in He. congruence.
  - destruct (outcome (rmap x)); [|by apply elem_of_nil in He].
    apply elem_of_cons in He as [->|He]; [congruence|].
    apply list_elem_of_singleton in He as ->. congruence.
Qed.

Lemma har_sequential_no_history input :
  sequential (trace_of (har (VDict [("input", VStr input); ("chat_history", VMsgs [])])))
  = [Start Rewriting; End Rewriting; Start Retrieving; Search input 3;
     match similarity_search input 3 with
     | Ok _ => End Retrieving
     | Err e => Raised Retrieving e
     end].
Proof. unfold_runs. run_cases; reflexivity. Qed.

Lemma har_sequential_history input m hist :
  let p := SystemMessage
             "Rewrite the latest user message as a standalone question using chat_history."
           :: (m :: hist) ++ [HumanMessage input] in
  sequential
    (trace_of (har (VDict [("input", VStr input); ("chat_history", VMsgs (m :: hist))])))
  = Start Rewriting :: LLMCall Rewriting p ::
    match groq p with
    | Ok q =>
        [End Rewriting; Start Retrieving; Search q 3;
         match similarity_search q 3 with
         | Ok _ => End Retrieving
         | Err e => Raised Retrieving e
         end]
    | Err e => [Raised Rewriting e]
    end.
Proof.
  intros p. unfold history_aware_retriever, create_history_aware_retriever.
  cbn [get dict_get from_option truthy negb]. 
  unfold pipe, retrieve, retriever, as_retriever, stage_run, lift, model.
  unfold mbind, M_bind, mret, M_ret. cbn [outcome trace_of].
  rewrite rewrite_prompt_rendered. fold p. cbn [outcome trace_of].
  unfold mbind, result_bind.
  destruct (groq p) as [q|e]; cbn; [|done].
  by destruct (similarity_search q 3).
Qed.

Lemma search_from_har x q k :
  Search q k ∈ sequential (trace_of (rag x)) →
  Search q k ∈ sequential (trace_of (har x)).
Proof. apply (rag_event_from_har is_search); [apply mem_no_search|done..]. Qed.

Lemma rewriting_call_from_har x p :
  LLMCall Rewriting p ∈ sequential (trace_of (rag x)) →
  LLMCall Rewriting p ∈ sequential (trace_of (har x)).
Proof.
  apply (rag_event_from_har (is_llm_call Rewriting));
    [apply mem_no_rewriting_call|done..].
Qed.

Lemma har_in_rag x e :
  e ∈ sequential (trace_of (har x)) → e ∈ sequential (trace_of (rag x)).
Proof. rewrite rag_sequential, elem_of_app. by left. Qed.

(** C8. In every schedule of every invocation, each request to the vector
    store asks for [k = 3] documents, and its query is the standalone
    query: the raw input when the session has no history, the rewriting
    model's completion otherwise; and once that query is there the
    retriever is asked for it. *)
Theorem retriever_asked_top_3 (self : builder) (input session_id : string)
    (l : list event) :
  linear (trace_of (snd (chain self input session_id))) l →
  let hist := session_messages self session_id in
  let p := SystemMessage
             "Rewrite the latest user message as a standalone question using chat_history."
           :: hist ++ [HumanMessage input] in
  (∀ q k, Search q k ∈ l →
     k = 3 ∧ (hist = [] ∧ q = input ∨ hist ≠ [] ∧ groq p = Ok q))
  ∧ (hist = [] → Search input 3 ∈ l)
  ∧ (∀ q, hist ≠ [] → groq p = Ok q → Search q 3 ∈ l).
Proof.
  rewrite chain_snd. intros Hl hist p. subst p hist.
  destruct (session_messages self session_id) as [|m hist].
  - split_and!.
    + intros q k Hq. rewrite (linear_elem_of _ _ _ Hl) in Hq.
      apply search_from_har in Hq. rewrite har_sequential_no_history in Hq.
      rewrite !elem_of_cons, elem_of_nil in Hq.
      destruct Hq as [Hq|[Hq|[Hq|[Hq|[Hq|[]]]]]]; try discriminate.
      * injection Hq as -> ->. split; [done|]. by left.
      * by destruct (similarity_search input 3).
    + intros _. rewrite (linear_elem_of _ _ _ Hl). apply har_in_rag.
      rewrite har_sequential_no_history. rewrite !elem_of_cons. tauto.
    + by intros q Hne.
  - split_and!.
    + intros q k Hq. rewrite (linear_elem_of _ _ _ Hl) in Hq.
      apply search_from_har in Hq. rewrite har_sequential_history in Hq.
      cbn zeta in Hq. 
      destruct (groq _) as [q'|e] eqn:Eg;
        rewrite !elem_of_cons, elem_of_nil in Hq.
      * destruct Hq as [Hq|[Hq|[Hq|[Hq|[Hq|[Hq|[]]]]]]]; try discriminate.
        -- injection Hq as -> ->. split; [done|]. right. by split.
        -- by destruct (similarity_search q' 3).
      * destruct Hq as [Hq|[Hq|[Hq|[]]]]; discriminate.
    + by intros [=].
    + intros q _ Hq. rewrite (linear_elem_of _ _ _ Hl). apply har_in_rag.
      rewrite har_sequential_history. cbn zeta. rewrite Hq.
      rewrite !elem_of_cons. tauto.
Qed.

(** C9. When the session has no history, the query handed to the retriever
    is the raw input itself, the retriever is asked for it, and no request
    goes to the rewriting model, in every schedule. *)
Theorem empty_history_query_is_input (self : builder) (input session_id : string)
    (l : list event) :
  session_messages self session_id = [] →
  linear (trace_of (snd (chain self input session_id))) l →
  Search input 3 ∈ l
  ∧ (∀ q k, Search q k ∈ l → q = input)
  ∧ (∀ p, LLMCall Rewriting p ∉ l).
Proof.
  intros Hempty. rewrite chain_snd, Hempty. intros Hl. split_and!.
  - rewrite (linear_elem_of _ _ _ Hl). apply har_in_rag.
    rewrite har_sequential_no_history. rewrite !elem_of_cons. tauto.
  - intros q k Hq. rewrite (linear_elem_of _ _ _ Hl) in Hq.
    apply search_from_har in Hq. rewrite har_sequential_no_history in Hq.
    rewrite !elem_of_cons, elem_of_nil in Hq.
    destruct Hq as [Hq|[Hq|[Hq|[Hq|[Hq|[]]]]]]; try discriminate.
    + by injection Hq as -> ->.
    + by destruct (similarity_search input 3).
  - intros p Hp. rewrite (linear_elem_of _ _ _ Hl) in Hp.
    apply rewriting_call_from_har in Hp. rewrite har_sequential_no_history in Hp.
    rewrite !elem_of_cons, elem_of_nil in Hp.
    destruct Hp as [Hp|[Hp|[Hp|[Hp|[Hp|[]]]]]]; try discriminate.
    by destruct (similarity_search input 3).
Qed.

(** *** The turn and the history *)

(** No invocation of the chain returns an answer: the map's output lacks
    [chat_history], so the answer prompt raises whenever the map succeeds. *)
Lemma chain_never_answers self input sid :
  ∃ e, outcome (snd (chain self input sid)) = Err e.
Proof. rewrite chain_snd. apply rag_with_memory_raises. Qed.

(** C7 (as the code has it). The summarizer's output is the chat model's
    completion for the memory prompt, as it comes: the prompt is the
    instruction text, the history, and the new request, and the instruction
    text ends by asking for the literal [none] when nothing is explicit. *)
Theorem summarizer_relays_model (input : string) (hist : list message) :
  outcome (mem (VDict [("input", VStr input); ("chat_history", VMsgs hist)]))
  = (text ← groq (SystemMessage memory_system
                  :: hist ++ [HumanMessage ("New request: " +:+ input)]);
     Ok (VStr text))
  ∧ ∃ before,
      memory_system
      = before +:+ "If nothing explicit, return " +:+ dq +:+ "none" +:+ dq +:+ ".".
Proof.
  split; [apply memory_chain_outcome|].
  exists (lines
            [ "From chat_history and the latest user input, extract the user's";
              "preferences/constraints as short bullets: budget, brands, features,";
              "use-case, dislikes, previously chosen items.";
              "" ]).
  reflexivity.
Qed.

End ChainProps.

(** ** Worked invocations *)

(** The wrapper as [build_chain] configures it, on a runnable that ends
    well. An answer under ["answer"] in a dict is recorded with the input;
    an answer that is a bare string is handed to the caller and not
    recorded. *)
Example dict_answer_recorded :
  let r := RunnableWithMessageHistory (answer_runnable "ok") _get_history
             "input" "chat_history" "answer" init "hi" "s1" in
  outcome (snd r) = Ok (VDict [("answer", VStr "ok")])
  ∧ session_messages (fst r) "s1" = [HumanMessage "hi"; AIMessage "ok"].
Proof. split; vm_compute; reflexivity. Qed.

Example string_answer_not_recorded :
  let r := RunnableWithMessageHistory (fixed_answer "ok") _get_history
             "input" "chat_history" "answer" init "hi" "s1" in
  outcome (snd r) = Ok (VStr "ok")
  ∧ session_messages (fst r) "s1" = [].
Proof. split; vm_compute; reflexivity. Qed.

(** The chain with the chat model down: the caller gets the model's
    failure and the recorded turn is all the session holds. *)
Example model_down_turn_untouched :
  let r := build_chain down_model one_doc_search opaque_str
             seeded "and cheaper?" "s1" in
  outcome (snd r) = Err (UpstreamError "rate limit")
  ∧ session_messages (fst r) "s1" = one_turn.
Proof. split; vm_compute; reflexivity. Qed.


(** The second turn of session ["s1"], every map step running to its end
    before the next one starts. *)
Example second_turn_schedule :
  sequential
    (trace_of (snd (build_chain echo_model one_doc_search opaque_str
                      seeded "and cheaper?" "s1")))
  = [ Start Rewriting;
      LLMCall Rewriting
        (SystemMessage
           "Rewrite the latest user message as a standalone question using chat_history."
         :: one_turn ++ [HumanMessage "and cheaper?"]);
      End Rewriting;
      Start Retrieving; Search "ok" 3; End Retrieving;
      Start Summarizing;
      LLMCall Summarizing
        (SystemMessage memory_system
         :: one_turn ++ [HumanMessage "New request: and cheaper?"]);
      End Summarizing;
      Start Generating; Raised Generating (KeyError "chat_history") ].
Proof. vm_compute. reflexivity. Qed.

Lemma stages_ordered_witness :
  let t := trace_of (snd (build_chain echo_model one_doc_search opaque_str
                            seeded "and cheaper?" "s1")) in
  linear t (sequential t)
  ∧ preceded (is_end Rewriting) (is_start Retrieving) (sequential t)
  ∧ preceded (is_end Retrieving) (is_start Generating) (sequential t)
  ∧ preceded (is_end Summarizing) (is_start Generating) (sequential t)
  ∧ preceded (is_llm_call Rewriting) is_search (sequential t).
Proof.
  intros t.
  destruct (stages_ordered echo_model one_doc_search opaque_str
              seeded "and cheaper?" "s1" (sequential t) (linear_sequential t))
    as (H1 & H2 & H3 & H4).
  split_and!; [apply linear_sequential|exact H1|exact H2|exact H3|].
  apply H4. vm_compute. discriminate.
Defined.

Lemma retriever_asked_top_3_witness :
  let t := trace_of (snd (build_chain echo_model one_doc_search opaque_str
                            seeded "and cheaper?" "s1")) in
  linear t (sequential t)
  ∧ (∀ q k, Search q k ∈ sequential t → k = 3)
  ∧ Search "ok" 3 ∈ sequential t.
Proof.
  intros t.
  destruct (retriever_asked_top_3 echo_model one_doc_search opaque_str
              seeded "and cheaper?" "s1" (sequential t) (linear_sequential t))
    as (H1 & H2 & H3).
  split_and!; [apply linear_sequential| |].
  - intros q k Hq. by destruct (H1 q k Hq).
  - apply H3; [vm_compute; discriminate|reflexivity].
Defined.

Lemma empty_history_query_is_input_witness :
  let t := trace_of (snd (build_chain echo_model one_doc_search opaque_str
                            init first_request "s1")) in
  session_messages init "s1" = []
  ∧ linear t (sequential t)
  ∧ Search first_request 3 ∈ sequential t
  ∧ (∀ q k, Search q k ∈ sequential t → q = first_request)
  ∧ (∀ p, LLMCall Rewriting p ∉ sequential t).
Proof.
  intros t. split; [reflexivity|]. split; [apply linear_sequential|].
  exact (empty_history_query_is_input echo_model one_doc_search opaque_str
           init first_request "s1" (sequential t) eq_refl (linear_sequential t)).
Defined.

(** C7 as stated fails: with nothing said about preferences and a model
    that answers [ok], the summarizer's output is [ok], not [none]. *)
Lemma summarizer_sentinel_not_enforced :
  outcome (memory_chain echo_model opaque_str
             (VDict [("input", VStr "hi"); ("chat_history", VMsgs [])]))
  = Ok (VStr "ok")
  ∧ outcome (memory_chain echo_model opaque_str
               (VDict [("input", VStr "hi"); ("chat_history", VMsgs [])]))
    ≠ Ok (VStr "none").
Proof. split; [reflexivity|]. vm_compute. discriminate. Qed.

(** C2 at the second turn of ["s1"]: the rewriter and the summarizer are
    sent the recorded turn and nothing else as history, but the dict that
    reaches the answer chain has no [chat_history] entry. *)
Theorem answer_chain_gets_no_history :
  let x := VDict [("input", VStr "and cheaper?"); ("chat_history", VMsgs one_turn)] in
  snd (build_chain echo_model one_doc_search opaque_str seeded "and cheaper?" "s1")
  = rag_with_memory echo_model one_doc_search opaque_str x
  ∧ format_messages opaque_str rewrite_prompt x
    = Ok (SystemMessage
            "Rewrite the latest user message as a standalone question using chat_history."
          :: one_turn ++ [HumanMessage "and cheaper?"])
  ∧ format_messages opaque_str memory_prompt x
    = Ok (SystemMessage memory_system
          :: one_turn ++ [HumanMessage "New request: and cheaper?"])
  ∧ ∃ v, outcome (rag_map echo_model one_doc_search opaque_str x) = Ok v
         ∧ get v "chat_history" = None.
Proof.
  intros x. split_and!; [by vm_compute|reflexivity|reflexivity|].
  eexists. split; [reflexivity|reflexivity].
Qed.

(** C3 at a first request: the answer chain receives three keys, and under
    [input] the whole input dict, not the message string. *)
Theorem answer_chain_input_is_whole_dict :
  let x := VDict [("input", VStr first_request); ("chat_history", VMsgs [])] in
  outcome (rag_map echo_model one_doc_search opaque_str x)
  = Ok (VDict [ ("context", VDocs [Document first_request []]);
                ("memory", VStr "ok");
                ("input", x) ])
  ∧ outcome (combine_docs_chain echo_model opaque_str
               (VDict [ ("context", VDocs [Document first_request []]);
                        ("memory", VStr "ok");
                        ("input", x) ]))
    = Err (KeyError "chat_history").
Proof. split; reflexivity. Qed.

(** C4 at a first request: the call raises; no answer is returned. *)
Theorem first_request_raises :
  outcome (snd (build_chain echo_model one_doc_search opaque_str
                  init first_request "s1"))
  = Err (KeyError "chat_history").
Proof. vm_compute. reflexivity. Qed.

(** ** Further properties of the chain *)

Section MoreChainProps.

Variable groq : list message → result string.
Variable similarity_search : string → nat → result (list document).
Variable py_str : value → string.

Local Abbreviation har := (history_aware_retriever groq similarity_search py_str).
Local Abbreviation mem := (memory_chain groq py_str).
Local Abbreviation rmap := (rag_map groq similarity_search py_str).
Local Abbreviation rag := (rag_with_memory groq similarity_search py_str).
Local Abbreviation chain := (build_chain groq similarity_search py_str).
Local Abbreviation wrap runnable :=
  (RunnableWithMessageHistory runnable _get_history "input" "chat_history" "answer").

Lemma requests_rendered input hist :
  format_messages py_str rewrite_prompt (turn_input input hist)
  = Ok (rewrite_request input hist)
  ∧ format_messages py_str memory_prompt (turn_input input hist)
    = Ok (memory_request input hist).
Proof. split; reflexivity. Qed.

Lemma mem_sequential input hist :
  sequential (trace_of (mem (turn_input input hist)))
  = [ Start Summarizing; LLMCall Summarizing (memory_request input hist);
      match groq (memory_request input hist) with
      | Ok _ => End Summarizing
      | Err e => Raised Summarizing e
      end ].
Proof.
  unfold turn_input, memory_request, memory_chain, stage_run, lift, model.
  unfold mbind, M_bind, mret, M_ret. cbn [outcome trace_of].
  rewrite memory_prompt_rendered. cbn [outcome trace_of].
  unfold mbind, result_bind. by destruct (groq _).
Qed.

Lemma har_outcome_turn input hist :
  outcome (har (turn_input input hist))
  = (q ← standalone_query groq input hist; docs ← similarity_search q 3; Ok (VDocs docs)).
Proof.
  unfold turn_input, standalone_query, rewrite_request.
  destruct hist as [|m hist].
  - unfold history_aware_retriever, create_history_aware_retriever, pipe, retrieve,
      retriever, as_retriever, stage_run, lift.
    unfold mbind, M_bind, mret, M_ret, result_bind. simpl.
    by destruct (similarity_search input 3).
  - unfold history_aware_retriever, create_history_aware_retriever.
    cbn [get dict_get from_option truthy negb].
    unfold pipe, retrieve, retriever, as_retriever, stage_run, lift, model.
    unfold mbind, M_bind, mret, M_ret. cbn [outcome trace_of].
    rewrite rewrite_prompt_rendered. cbn [outcome trace_of].
    unfold mbind, result_bind.
    destruct (groq _) as [q|e]; cbn; [|done].
    by destruct (similarity_search q 3).
Qed.

Lemma rmap_outcome_turn input hist :
  outcome (rmap (turn_input input hist))
  = (q ← standalone_query groq input hist;
     docs ← similarity_search q 3;
     text ← groq (memory_request input hist);
     Ok (VDict [("context", VDocs docs); ("memory", VStr text);
                ("input", turn_input input hist)])).
Proof.
  assert (Hmap : outcome (rmap (turn_input input hist))
                 = (c ← outcome (har (turn_input input hist));
                    m ← outcome (mem (turn_input input hist));
                    Ok (VDict [("context", c); ("memory", m);
                               ("input", turn_input input hist)]))).
  { unfold rag_map, RunnableMap. cbn [RunnableParallel trace_of outcome].
    unfold mbind, result_bind.
    destruct (outcome (har _)); [|done]. by destruct (outcome (mem _)). }
  rewrite Hmap, har_outcome_turn. unfold turn_input, memory_request.
  rewrite memory_chain_outcome.
  unfold mbind, result_bind.
  destruct (standalone_query groq input hist) as [q|e]; [|done].
  destruct (similarity_search q 3); [|done].
  by destruct (groq _).
Qed.

Lemma rag_outcome_turn input hist :
  outcome (rag (turn_input input hist))
  = (q ← standalone_query groq input hist;
     _ ← similarity_search q 3;
     _ ← groq (memory_request input hist);
     Err (KeyError "chat_history")).
Proof.
  rewrite rag_with_memory_run, rmap_outcome_turn.
  unfold mbind, result_bind.
  destruct (standalone_query groq input hist) as [q|e]; [|done].
  destruct (similarity_search q 3); [|done].
  by destruct (groq _).
Qed.

(** X1. Which exception the caller of the chain gets: that of the rewriting
    model if it fails (only asked when the session has a history), else that
    of the vector store, else that of the summarizer, and when all three
    succeed the [KeyError] of the answer prompt. *)
Theorem chain_outcome (self : builder) (input session_id : string) :
  let hist := session_messages self session_id in
  outcome (snd (chain self input session_id))
  = (q ← standalone_query groq input hist;
     _ ← similarity_search q 3;
     _ ← groq (memory_request input hist);
     Err (KeyError "chat_history")).
Proof. intros hist. rewrite chain_snd. apply rag_outcome_turn. Qed.

(** *** Requests made in one turn *)

Lemma count_app (P : event → bool) (l1 l2 : list event) :
  count P (l1 ++ l2) = count P l1 + count P l2.
Proof. induction l1 as [|e l1 IH]; simpl; [done|]. rewrite IH. lia. Qed.

Lemma count_interleave (P : event → bool) (l1 l2 l : list event) :
  interleave l1 l2 l → count P l = count P l1 + count P l2.
Proof. induction 1 as [|a l1 l2 l Hi IH|a l1 l2 l Hi IH]; simpl; lia. Qed.

Lemma count_linear (P : event → bool) (t : trace) (l : list event) :
  linear t l → count P l = count P (sequential t).
Proof.
  induction 1 as [|e0|t1 t2 l1 l2 H1 IH1 H2 IH2|t1 t2 l1 l2 l H1 IH1 H2 IH2 Hi];
    simpl; [done|done| |].
  - rewrite !count_app. lia.
  - rewrite (count_interleave _ _ _ _ Hi), count_app. lia.
Qed.

Lemma turn_sequential input hist :
  sequential (trace_of (rag (turn_input input hist)))
  = (Start Rewriting ::
     match hist with
     | [] => []
     | _ :: _ => [LLMCall Rewriting (rewrite_request input hist)]
     end
     ++ match standalone_query groq input hist with
        | Ok q =>
            [ End Rewriting; Start Retrieving; Search q 3;
              match similarity_search q 3 with
              | Ok _ => End Retrieving
              | Err e => Raised Retrieving e
              end ]
        | Err e => [Raised Rewriting e]
        end)
    ++ [ Start Summarizing; LLMCall Summarizing (memory_request input hist);
         match groq (memory_request input hist) with
         | Ok _ => End Summarizing
         | Err e => Raised Summarizing e
         end ]
    ++ match outcome (rmap (turn_input input hist)) with
       | Ok _ => [Start Generating; Raised Generating (KeyError "chat_history")]
       | Err _ => []
       end.
Proof.
  rewrite rag_sequential, mem_sequential. f_equal.
  unfold turn_input. destruct hist as [|m hist].
  - by rewrite har_sequential_no_history.
  - rewrite har_sequential_history. cbn zeta. unfold standalone_query, rewrite_request.
    by destruct (groq _).
Qed.

Lemma turn_gen_events input hist (e : event) :
  e ∈ match outcome (rmap (turn_input input hist)) with
      | Ok _ => [Start Generating; Raised Generating (KeyError "chat_history")]
      | Err _ => []
      end →
  e = Start Generating ∨ e = Raised Generating (KeyError "chat_history").
Proof.
  destruct (outcome _); [|by intros ?%elem_of_nil].
  rewrite !elem_of_cons, elem_of_nil. tauto.
Qed.

(** X2. In every schedule of every invocation the summarizer's request goes
    to the chat model, also when rewriting or retrieval fail: it carries the
    instruction text, then the whole recorded history in order, then the new
    request. *)
Theorem summarizer_always_asked (self : builder) (input session_id : string)
    (l : list event) :
  linear (trace_of (snd (chain self input session_id))) l →
  LLMCall Summarizing (memory_request input (session_messages self session_id)) ∈ l.
Proof.
  rewrite chain_snd. fold (turn_input input (session_messages self session_id)).
  intros Hl. rewrite (linear_elem_of _ _ _ Hl), turn_sequential.
  rewrite !elem_of_app. right. left. rewrite !elem_of_cons. tauto.
Qed.

(** X3. No schedule of any invocation shows a request to the chat model
    from the answer chain: the answer prompt is never sent. *)
Theorem answer_model_never_asked (self : builder) (input session_id : string)
    (l : list event) (p : list message) :
  linear (trace_of (snd (chain self input session_id))) l →
  LLMCall Generating p ∉ l.
Proof.
  rewrite chain_snd. fold (turn_input input (session_messages self session_id)).
  intros Hl Hp. rewrite (linear_elem_of _ _ _ Hl), turn_sequential in Hp.
  rewrite !elem_of_app in Hp. destruct Hp as [Hp|[Hp|Hp]].
  - apply elem_of_cons in Hp as [Hp|Hp]; [done|].
    apply elem_of_app in Hp as [Hp|Hp].
    + destruct (session_messages self session_id); [by apply elem_of_nil in Hp|].
      by apply list_elem_of_singleton in Hp.
    + destruct (standalone_query _ _ _) as [q|e].
      * rewrite !elem_of_cons, elem_of_nil in Hp.
        destruct Hp as [Hp|[Hp|[Hp|[Hp|[]]]]]; try discriminate.
        by destruct (similarity_search q 3).
      * by apply list_elem_of_singleton in Hp.
  - rewrite !elem_of_cons, elem_of_nil in Hp.
    destruct Hp as [Hp|[Hp|[Hp|[]]]]; try discriminate.
    by destruct (groq _).
  - by destruct (turn_gen_events _ _ _ Hp).
Qed.

(** X4. What one invocation costs, in every schedule: one request to the
    chat model when the session has no history and two when it has one, and
    one search when the standalone query was obtained, none otherwise. *)
Theorem requests_per_turn (self : builder) (input session_id : string)
    (l : list event) :
  linear (trace_of (snd (chain self input session_id))) l →
  let hist := session_messages self session_id in
  count is_llm l = match hist with [] => 1 | _ :: _ => 2 end
  ∧ count is_search l
    = match standalone_query groq input hist with Ok _ => 1 | Err _ => 0 end.
Proof.
  rewrite chain_snd. fold (turn_input input (session_messages self session_id)).
  intros Hl hist. rewrite !(count_linear _ _ _ Hl), turn_sequential.
  fold hist. rewrite !count_app. cbn [count].
  assert (Hgen : ∀ P, P (Start Generating) = false →
                 P (Raised Generating (KeyError "chat_history")) = false →
                 count P match outcome (rmap (turn_input input hist)) with
                         | Ok _ => [Start Generating;
                                    Raised Generating (KeyError "chat_history")]
                         | Err _ => []
                         end = 0).
  { intros P H1 H2. destruct (outcome _); simpl; [by rewrite H1, H2|done]. }
  rewrite !Hgen by done. split.
  - destruct hist as [|m hist']; cbn [standalone_query];
      [|destruct (groq (rewrite_request input (m :: hist'))) as [q|e]]; simpl.
    + destruct (similarity_search input 3), (groq (memory_request input [])); done.
    + destruct (similarity_search q 3), (groq (memory_request input (m :: hist'))); done.
    + by destruct (groq (memory_request input (m :: hist'))).
  - destruct hist as [|m hist']; cbn [standalone_query];
      [|destruct (groq (rewrite_request input (m :: hist'))) as [q|e]]; simpl.
    + destruct (similarity_search input 3), (groq (memory_request input [])); done.
    + destruct (similarity_search q 3), (groq (memory_request input (m :: hist'))); done.
    + by destruct (groq (memory_request input (m :: hist'))).
Qed.

(** X5. When the rewriting model fails, the vector store is not asked at
    all, in any schedule, and the caller gets the model's exception. *)
Theorem failed_rewrite_skips_search (self : builder) (input session_id : string)
    (l : list event) (e : error) :
  standalone_query groq input (session_messages self session_id) = Err e →
  linear (trace_of (snd (chain self input session_id))) l →
  (∀ q k, Search q k ∉ l)
  ∧ Raised Rewriting e ∈ l
  ∧ outcome (snd (chain self input session_id)) = Err e.
Proof.
  intros Hq. rewrite chain_snd.
  fold (turn_input input (session_messages self session_id)).
  intros Hl. split_and!.
  - intros q k Hs. rewrite (linear_elem_of _ _ _ Hl), turn_sequential, Hq in Hs.
    rewrite !elem_of_app in Hs. destruct Hs as [Hs|[Hs|Hs]].
    + apply elem_of_cons in Hs as [Hs|Hs]; [done|].
      apply elem_of_app in Hs as [Hs|Hs].
      * destruct (session_messages self session_id); [by apply elem_of_nil in Hs|].
        by apply list_elem_of_singleton in Hs.
      * by apply list_elem_of_singleton in Hs.
    + rewrite !elem_of_cons, elem_of_nil in Hs.
      destruct Hs as [Hs|[Hs|[Hs|[]]]]; try discriminate.
      by destruct (groq _).
    + by destruct (turn_gen_events _ _ _ Hs).
  - rewrite (linear_elem_of _ _ _ Hl), turn_sequential, Hq.
    rewrite !elem_of_app. left. apply elem_of_cons. right.
    apply elem_of_app. right. by apply list_elem_of_singleton.
  - by rewrite rag_outcome_turn, Hq.
Qed.

(** *** The store across invocations *)

Lemma wrapper_store (runnable : value → M value) self input sid :
  history_store (fst (wrap runnable self input sid))
  = history_store (fst (_get_history self sid)).
Proof.
  unfold RunnableWithMessageHistory.
  destruct (_get_history self sid) as [self1 [hist|e]]; [|done]. simpl.
  destruct (outcome _) as [out|e]; [|done].
  by destruct (_get_output_messages "answer" out).
Qed.

Lemma _get_history_dom self s :
  dom (history_store (fst (_get_history self s))) = {[s]} ∪ dom (history_store self).
Proof.
  destruct (history_store self !! s) as [l|] eqn:E.
  - rewrite (_get_history_registered _ _ _ E). simpl.
    apply elem_of_dom_2 in E. symmetry. apply subseteq_union_1_L.
    by apply singleton_subseteq_l.
  - rewrite (_get_history_unseen _ _ E). simpl. by rewrite dom_insert_L.
Qed.

Lemma _get_history_keeps self s t l :
  history_store self !! t = Some l →
  history_store (fst (_get_history self s)) !! t = Some l.
Proof. apply (run_op_keeps_binding self (OpGetHistory s)). Qed.

Lemma wf_wrapper (runnable : value → M value) self input sid :
  wf self → wf (fst (wrap runnable self input sid)).
Proof.
  intros Hwf.
  by destruct (RunnableWithMessageHistory_run runnable self input sid Hwf)
    as (_ & H & _).
Qed.

Lemma wf_invoke_all (runnable : value → M value) calls self :
  wf self → wf (invoke_all (wrap runnable) calls self).
Proof.
  revert self. induction calls as [|[i s] calls IH]; intros self Hwf; [done|].
  apply IH. by apply wf_wrapper.
Qed.

(** X6. Every session id ever passed to [invoke] is registered afterwards,
    whether its turn ended well or raised, and no registration is ever
    removed or replaced: the store only grows. *)
Theorem sessions_never_evicted (runnable : value → M value)
    (calls : list (string * string)) (self : builder) :
  let self' := invoke_all (wrap runnable) calls self in
  dom (history_store self')
  = dom (history_store self) ∪ list_to_set (map snd calls)
  ∧ ∀ s l, history_store self !! s = Some l → history_store self' !! s = Some l.
Proof.
  revert self. induction calls as [|[i sid] calls IH]; intros self; simpl.
  - split; [by rewrite (right_id_L ∅ (∪))|done].
  - destruct (IH (fst (wrap runnable self i sid))) as [Hdom Hkeep]. split.
    + rewrite Hdom, wrapper_store, _get_history_dom.
      by rewrite (comm_L (∪) {[sid]}), (assoc_L (∪)).
    + intros s l H. apply Hkeep. rewrite wrapper_store. by apply _get_history_keeps.
Qed.

(** X7. The chain of [build_chain] never records anything: after any
    sequence of invocations every session holds the messages it held
    before. *)
Theorem chain_never_records (calls : list (string * string)) (self : builder)
    (t : string) :
  wf self →
  session_messages (invoke_all chain calls self) t = session_messages self t.
Proof.
  revert self. induction calls as [|[i sid] calls IH]; intros self Hwf; [done|].
  simpl. rewrite IH by (by apply wf_wrapper).
  destruct (RunnableWithMessageHistory_run rag self i sid Hwf)
    as (_ & _ & Hother & Hsid).
  destruct (decide (t = sid)) as [->|Hne]; [|by apply Hother].
  unfold build_chain. rewrite Hsid.
  destruct (rag_with_memory_raises groq similarity_search py_str
              (VDict [("input", VStr i);
                      ("chat_history", VMsgs (session_messages self sid))]))
    as [e ->].
  by rewrite app_nil_r.
Qed.

Lemma _get_output_messages_answer kvs a :
  dict_get kvs "answer" = Some (VStr a) →
  _get_output_messages "answer" (VDict kvs) = Ok [AIMessage a].
Proof. intros H. unfold _get_output_messages. by rewrite H. Qed.

Lemma _get_output_messages_str a :
  _get_output_messages "answer" (VStr a) = Err (KeyError "answer").
Proof. reflexivity. Qed.

(** X8. What the next turn of a session starts from after a turn that
    ended well: when the wrapped runnable returned a dict with the answer
    string under ["answer"], the earlier history followed by that turn's
    input and answer; when it returned a bare string, the earlier history
    alone, since nothing was recorded. *)
Theorem turn_round_trip (runnable : value → M value) (self : builder)
    (input1 input2 session_id : string) (out : value) :
  wf self →
  outcome (runnable (turn_input input1 (session_messages self session_id)))
  = Ok out →
  let next :=
    snd (wrap runnable (fst (wrap runnable self input1 session_id))
           input2 session_id) in
  (∀ kvs answer, out = VDict kvs → dict_get kvs "answer" = Some (VStr answer) →
     next = runnable (turn_input input2
                        (session_messages self session_id
                         ++ [HumanMessage input1; AIMessage answer])))
  ∧ (∀ answer, out = VStr answer →
       next = runnable (turn_input input2 (session_messages self session_id))).
Proof.
  intros Hwf Hok next. subst next. rewrite wrapper_snd.
  destruct (RunnableWithMessageHistory_run runnable self input1 session_id Hwf)
    as (_ & _ & _ & Hsid).
  unfold turn_input in Hok. rewrite Hok in Hsid. split.
  - intros kvs answer -> Ha.
    rewrite (_get_output_messages_answer _ _ Ha) in Hsid. by rewrite Hsid.
  - intros answer ->. rewrite _get_output_messages_str, app_nil_r in Hsid.
    by rewrite Hsid.
Qed.

(** X9. Sessions are isolated: what a turn of session [t] is run on does
    not depend on a turn of another session [s] made before it. *)
Theorem sessions_isolated (runnable : value → M value) (self : builder)
    (input1 input2 s t : string) :
  wf self →
  s ≠ t →
  snd (wrap runnable (fst (wrap runnable self input1 s)) input2 t)
  = snd (wrap runnable self input2 t).
Proof.
  intros Hwf Hne. rewrite !wrapper_snd.
  destruct (RunnableWithMessageHistory_run runnable self input1 s Hwf)
    as (_ & _ & Hother & _).
  by rewrite Hother.
Qed.

Lemma whole_turns_app (ms ms' : list message) :
  whole_turns ms = true → whole_turns (ms ++ ms') = whole_turns ms'.
Proof.
  remember (length ms) as n eqn:Hn. revert ms Hn.
  induction n as [n IH] using lt_wf_ind. intros ms Hn H.
  destruct ms as [|[[] c1] [|[[] c2] rest]]; simpl in *; try done.
  apply (IH (length rest)); [lia|done|done].
Qed.

(** X10. Whole turns stay whole: when the wrapped runnable answers with a
    dict holding the answer string under ["answer"], or with a bare string,
    every session's history remains a sequence of user message and
    assistant message pairs through any sequence of invocations, recorded,
    not recorded or raised. *)
Theorem histories_hold_whole_turns (runnable : value → M value)
    (calls : list (string * string)) (self : builder) :
  wf self →
  (∀ x out, outcome (runnable x) = Ok out →
     (∃ kvs a, out = VDict kvs ∧ dict_get kvs "answer" = Some (VStr a))
     ∨ (∃ a, out = VStr a)) →
  (∀ t, whole_turns (session_messages self t) = true) →
  ∀ t, whole_turns (session_messages (invoke_all (wrap runnable) calls self) t) = true.
Proof.
  intros Hwf Hout. revert self Hwf.
  induction calls as [|[i sid] calls IH]; intros self Hwf Hwhole; [done|].
  simpl. apply IH; [by apply wf_wrapper|]. intros t.
  destruct (RunnableWithMessageHistory_run runnable self i sid Hwf)
    as (_ & _ & Hother & Hsid).
  destruct (decide (t = sid)) as [->|Hne]; [|rewrite Hother; done].
  rewrite Hsid, whole_turns_app by done.
  destruct (outcome _) as [out|e] eqn:Eo; [|done].
  destruct (Hout _ _ Eo) as [(kvs & a & -> & Ha)|[a ->]].
  - by rewrite (_get_output_messages_answer _ _ Ha).
  - by rewrite _get_output_messages_str.
Qed.

(** X11. However many invocations were made since [__init__], with
    whatever outcome, two session ids never share a history object, and
    every registered history is a live object. *)
Theorem sessions_never_share (runnable : value → M value)
    (calls : list (string * string)) (s t : string) (l : nat) :
  let self := invoke_all (wrap runnable) calls init in
  history_store self !! s = Some l →
  (is_Some (heap self !! l)
   ∧ (history_store self !! t = Some l → s = t)).
Proof.
  intros self Hs.
  destruct (wf_invoke_all runnable calls init wf_init) as [Hlive Hinj].
  split; [by eapply Hlive|]. intros Ht. by eapply Hinj.
Qed.

(** *** The answer chain on the composite it asks for *)

Lemma dict_get_set_eq kvs k v : dict_get (dict_set kvs k v) k = Some v.
Proof.
  induction kvs as [|[k' v'] kvs IH]; simpl.
  - by rewrite decide_True.
  - destruct (decide (k' = k)) as [->|Hne]; simpl.
    + by rewrite decide_True.
    + by rewrite decide_False.
Qed.

Lemma dict_get_set_ne kvs k k' v :
  k ≠ k' → dict_get (dict_set kvs k v) k' = dict_get kvs k'.
Proof.
  intros Hne. induction kvs as [|[k0 v0] kvs IH]; simpl.
  - by rewrite decide_False.
  - destruct (decide (k0 = k)) as [->|H0]; simpl.
    + by rewrite !decide_False.
    + by rewrite IH.
Qed.

(** X12. Given a dict that has the user's message under [input], the
    history under [chat_history], documents under [context] and a summary
    under [memory], the answer chain sends one request to the chat model,
    namely the instruction text with the summary and the documents' contents
    filled in, then the history, then the question, and returns the
    completion as a string. *)
Theorem answer_chain_on_composite (kvs : list (string * value))
    (input memory : string) (hist : list message) (docs : list document) :
  dict_get kvs "input" = Some (VStr input) →
  dict_get kvs "chat_history" = Some (VMsgs hist) →
  dict_get kvs "context" = Some (VDocs docs) →
  dict_get kvs "memory" = Some (VStr memory) →
  let request :=
    SystemMessage
      (qa_system_head +:+ memory +:+ lines [""; ""; "CONTEXT:"; ""]
       +:+ join (nl +:+ nl) (map page_content docs))
    :: hist ++ [HumanMessage ("QUESTION: " +:+ input)] in
  outcome (combine_docs_chain groq py_str (VDict kvs))
  = (text ← groq request; Ok (VStr text))
  ∧ sequential (trace_of (combine_docs_chain groq py_str (VDict kvs)))
    = [ Start Generating; LLMCall Generating request;
        match groq request with
        | Ok _ => End Generating
        | Err e => Raised Generating e
        end ].
Proof.
  intros Hi Hh Hc Hm request.
  unfold combine_docs_chain, create_stuff_documents_chain, stage_run, lift, model.
  unfold mbind, M_bind, mret, M_ret. cbn [outcome trace_of].
  unfold assign, format_docs, getitem. rewrite Hc. cbn [mbind result_bind].
  cbn [outcome trace_of].
  assert (Hfmt : format_messages py_str qa_prompt
                   (VDict (dict_set kvs "context"
                             (VStr (join (nl +:+ nl) (map page_content docs)))))
                 = Ok request).
  { unfold format_messages, missing, input_variables. simpl.
    rewrite dict_get_set_eq, !dict_get_set_ne by done. rewrite Hi, Hh, Hm.
    rewrite !filter_cons_False
      by (cbv beta; rewrite ?dict_get_set_eq, ?dict_get_set_ne by done;
          rewrite ?Hi, ?Hh, ?Hm; discriminate).
    reflexivity. }
  rewrite Hfmt. cbn [outcome trace_of]. unfold mbind, result_bind.
  by destruct (groq request).
Qed.

End MoreChainProps.

(** ** Worked invocations, continued *)

Lemma summarizer_always_asked_witness :
  let t := trace_of (snd (build_chain down_model one_doc_search opaque_str
                            seeded "and cheaper?" "s1")) in
  linear t (sequential t)
  ∧ LLMCall Summarizing (memory_request "and cheaper?" (session_messages seeded "s1"))
    ∈ sequential t.
Proof.
  intros t. split; [apply linear_sequential|].
  exact (summarizer_always_asked down_model one_doc_search opaque_str
           seeded "and cheaper?" "s1" (sequential t) (linear_sequential t)).
Defined.

Lemma answer_model_never_asked_witness :
  let t := trace_of (snd (build_chain echo_model one_doc_search opaque_str
                            seeded "and cheaper?" "s1")) in
  linear t (sequential t)
  ∧ LLMCall Generating [] ∉ sequential t.
Proof.
  intros t. split; [apply linear_sequential|].
  exact (answer_model_never_asked echo_model one_doc_search opaque_str
           seeded "and cheaper?" "s1" (sequential t) [] (linear_sequential t)).
Defined.

Lemma requests_per_turn_witness :
  let t := trace_of (snd (build_chain echo_model one_doc_search opaque_str
                            seeded "and cheaper?" "s1")) in
  linear t (sequential t)
  ∧ count is_llm (sequential t) = 2
  ∧ count is_search (sequential t) = 1.
Proof.
  intros t. split; [apply linear_sequential|].
  exact (requests_per_turn echo_model one_doc_search opaque_str
           seeded "and cheaper?" "s1" (sequential t) (linear_sequential t)).
Defined.

Lemma failed_rewrite_skips_search_witness :
  let r := build_chain down_model one_doc_search opaque_str
             seeded "and cheaper?" "s1" in
  standalone_query down_model "and cheaper?" (session_messages seeded "s1")
  = Err (UpstreamError "rate limit")
  ∧ linear (trace_of (snd r)) (sequential (trace_of (snd r)))
  ∧ (∀ q k, Search q k ∉ sequential (trace_of (snd r)))
  ∧ Raised Rewriting (UpstreamError "rate limit") ∈ sequential (trace_of (snd r))
  ∧ outcome (snd r) = Err (UpstreamError "rate limit").
Proof.
  intros r.
  assert (Hq : standalone_query down_model "and cheaper?"
                 (session_messages seeded "s1")
               = Err (UpstreamError "rate limit")) by (vm_compute; reflexivity).
  split; [exact Hq|]. split; [apply linear_sequential|].
  exact (failed_rewrite_skips_search down_model one_doc_search opaque_str
           seeded "and cheaper?" "s1" (sequential (trace_of (snd r)))
           (UpstreamError "rate limit") Hq (linear_sequential _)).
Defined.

Lemma sessions_never_evicted_witness :
  let self' := invoke_all
                 (RunnableWithMessageHistory echo_runnable _get_history
                    "input" "chat_history" "answer")
                 [("hi", "s2"); ("hello", "s3")] seeded in
  dom (history_store self')
  = dom (history_store seeded) ∪ list_to_set ["s2"; "s3"]
  ∧ history_store self' !! "s1" = history_store seeded !! "s1".
Proof.
  intros self'.
  destruct (sessions_never_evicted echo_runnable [("hi", "s2"); ("hello", "s3")]
              seeded) as [Hdom Hkeep].
  split; [exact Hdom|].
  assert (Hs : history_store seeded !! "s1" = Some 0) by (vm_compute; reflexivity).
  rewrite Hs. exact (Hkeep "s1" 0 Hs).
Defined.

Lemma wf_seeded : wf seeded.
Proof. apply (wf_reachable [OpGetHistory "s1"; OpAddMessages 0 one_turn]). Qed.

Lemma chain_never_records_witness :
  wf seeded
  ∧ session_messages
      (invoke_all (build_chain echo_model one_doc_search opaque_str)
         [("and cheaper?", "s1"); ("hi", "s2")] seeded) "s1"
    = session_messages seeded "s1".
Proof.
  split; [apply wf_seeded|].
  exact (chain_never_records echo_model one_doc_search opaque_str
           [("and cheaper?", "s1"); ("hi", "s2")] seeded "s1" wf_seeded).
Defined.

Lemma turn_round_trip_witness :
  wf init
  ∧ outcome (answer_runnable "ok" (turn_input "hi" (session_messages init "s1")))
    = Ok (VDict [("answer", VStr "ok")])
  ∧ snd (RunnableWithMessageHistory (answer_runnable "ok") _get_history
           "input" "chat_history" "answer"
           (fst (RunnableWithMessageHistory (answer_runnable "ok") _get_history
                   "input" "chat_history" "answer" init "hi" "s1"))
           "again" "s1")
    = answer_runnable "ok"
        (turn_input "again"
           (session_messages init "s1" ++ [HumanMessage "hi"; AIMessage "ok"])).
Proof.
  split; [apply wf_init|]. split; [reflexivity|].
  destruct (turn_round_trip (answer_runnable "ok") init "hi" "again" "s1"
              (VDict [("answer", VStr "ok")]) wf_init eq_refl) as [Hdict _].
  exact (Hdict [("answer", VStr "ok")] "ok" eq_refl eq_refl).
Defined.

Lemma sessions_isolated_witness :
  wf seeded
  ∧ "s2" ≠ "s1"
  ∧ snd (RunnableWithMessageHistory echo_runnable _get_history
           "input" "chat_history" "answer"
           (fst (RunnableWithMessageHistory echo_runnable _get_history
                   "input" "chat_history" "answer" seeded "hi" "s2"))
           "again" "s1")
    = snd (RunnableWithMessageHistory echo_runnable _get_history
             "input" "chat_history" "answer" seeded "again" "s1").
Proof.
  assert (Hne : "s2" ≠ "s1") by discriminate.
  split; [apply wf_seeded|]. split; [exact Hne|].
  exact (sessions_isolated echo_runnable seeded "hi" "again" "s2" "s1"
           wf_seeded Hne).
Defined.

Lemma init_whole_turns t : whole_turns (session_messages init t) = true.
Proof. unfold session_messages. simpl. by rewrite lookup_empty. Qed.

Lemma histories_hold_whole_turns_witness :
  wf init
  ∧ (∀ x out, outcome (answer_runnable "ok" x) = Ok out →
       (∃ kvs a, out = VDict kvs ∧ dict_get kvs "answer" = Some (VStr a))
       ∨ (∃ a, out = VStr a))
  ∧ (∀ t, whole_turns (session_messages init t) = true)
  ∧ ∀ t, whole_turns
           (session_messages
              (invoke_all
                 (RunnableWithMessageHistory (answer_runnable "ok") _get_history
                    "input" "chat_history" "answer")
                 [("hi", "s1"); ("hello", "s2"); ("more", "s1")] init) t) = true.
Proof.
  assert (Hout : ∀ x out, outcome (answer_runnable "ok" x) = Ok out →
            (∃ kvs a, out = VDict kvs ∧ dict_get kvs "answer" = Some (VStr a))
            ∨ (∃ a, out = VStr a)).
  { intros x out [= <-]. left. by exists [("answer", VStr "ok")], "ok". }
  split; [apply wf_init|]. split; [exact Hout|]. split; [apply init_whole_turns|].
  exact (histories_hold_whole_turns (answer_runnable "ok")
           [("hi", "s1"); ("hello", "s2"); ("more", "s1")] init
           wf_init Hout init_whole_turns).
Defined.

(** Three turns that ended well with the answer under ["answer"], two of
    them in session ["s1"]. *)
Example two_turns_recorded :
  session_messages
    (invoke_all
       (RunnableWithMessageHistory (answer_runnable "ok") _get_history
          "input" "chat_history" "answer")
       [("hi", "s1"); ("hello", "s2"); ("more", "s1")] init) "s1"
  = [HumanMessage "hi"; AIMessage "ok"; HumanMessage "more"; AIMessage "ok"].
Proof. vm_compute. reflexivity. Qed.

Lemma sessions_never_share_witness :
  let self := invoke_all
                (RunnableWithMessageHistory (fixed_answer "ok") _get_history
                   "input" "chat_history" "answer")
                [("hi", "s1"); ("hello", "s2")] init in
  history_store self !! "s1" = Some 0
  ∧ is_Some (heap self !! 0)
  ∧ (history_store self !! "s1" = Some 0 → "s1" = "s1").
Proof.
  intros self.
  assert (Hs : history_store self !! "s1" = Some 0) by (vm_compute; reflexivity).
  split; [exact Hs|].
  exact (sessions_never_share (fixed_answer "ok") [("hi", "s1"); ("hello", "s2")]
           "s1" "s1" 0 Hs).
Defined.

Lemma answer_chain_on_composite_witness :
  let kvs := [ ("input", VStr "and cheaper?"); ("chat_history", VMsgs one_turn);
               ("context", VDocs [Document "A12: 6.5 inch, $199" []]);
               ("memory", VStr "- budget: under $300") ] in
  let request :=
    SystemMessage
      (qa_system_head +:+ "- budget: under $300" +:+ lines [""; ""; "CONTEXT:"; ""]
       +:+ "A12: 6.5 inch, $199")
    :: one_turn ++ [HumanMessage "QUESTION: and cheaper?"] in
  outcome (combine_docs_chain echo_model opaque_str (VDict kvs)) = Ok (VStr "ok")
  ∧ sequential (trace_of (combine_docs_chain echo_model opaque_str (VDict kvs)))
    = [Start Generating; LLMCall Generating request; End Generating].
Proof.
  intros kvs request.
  exact (answer_chain_on_composite echo_model opaque_str kvs
           "and cheaper?" "- budget: under $300" one_turn
           [Document "A12: 6.5 inch, $199" []]
           eq_refl eq_refl eq_refl eq_refl).
Defined.
